(** * reactor: the websocket consumer of the component session engine

    A shallow embedding of [reactor/channels.py] (class [ReactorConsumer])
    and of the [mount] methods of [tests/fision/todo/live.py].

    Python values that travel over the wire are JSON values; a handler is a
    function in a state-and-exception monad over the consumer's attributes,
    the channel layer and the trace of what the consumer did to the outside.
    The component layer of [reactor/component.py], the channel layer and the
    helpers of [reactor/utils.py] and [reactor/json.py] are not part of these
    sources: the component layer and the channel layer follow the
    specification, the rest is a parameter ([Collaborators]).  The [update]
    handler only forwards to the component layer's propagation and is left
    out. *)

From Stdlib Require Import ZArith String List Bool.
From stdpp Require Import base option gmap strings list pretty.

Open Scope string_scope.
Set Warnings "-register-all,-clear-no-such-hyp".

(** ** Python values *)

(** A decoded JSON document.  Numbers are integers here: no handler of the
    consumer computes with them.  A dictionary keeps its insertion order and
    has string keys, as a decoded JSON object has. *)
Inductive pyval : Type :=
| PNone
| PBool (b : bool)
| PInt (z : Z)
| PStr (s : string)
| PList (l : list pyval)
| PDict (d : list (string * pyval)).

Abbreviation dict := (list (string * pyval)).

(** [bool(v)]: what [if v:] and [v or w] test. *)
Definition truthy (v : pyval) : bool :=
  match v with
  | PNone => false
  | PBool b => b
  | PInt z => negb (Z.eqb z 0)
  | PStr s => negb (String.eqb s EmptyString)
  | PList l => match l with [] => false | _ => true end
  | PDict d => match d with [] => false | _ => true end
  end.

(** [a or b] *)
Definition py_or (a b : pyval) : pyval := if truthy a then a else b.

(** [d.get(k)] as an option: the first entry under [k]. *)
Fixpoint dict_get (k : string) (d : dict) : option pyval :=
  match d with
  | [] => None
  | (k', v) :: d' => if String.eqb k' k then Some v else dict_get k d'
  end.

(** [d[k] = v]: an existing key keeps its place, a new one goes last. *)
Fixpoint dict_set (k : string) (v : pyval) (d : dict) : dict :=
  match d with
  | [] => [(k, v)]
  | (k', v') :: d' =>
      if String.eqb k' k then (k', v) :: d' else (k', v') :: dict_set k v d'
  end.

(** [dict(a, **b)]: a copy of [a] updated with the entries of [b] in order. *)
Definition dict_update (a b : dict) : dict :=
  fold_left (fun acc kv => dict_set (fst kv) (snd kv) acc) b a.

(** [d[k]] in continuation style, so that a function recursive on a value
    can go on with what it finds in one of its dictionaries. *)
Section dict_get_k.
Context {A : Type} (k : string) (missing : A) (found : pyval -> A).

Fixpoint dict_get_k (d : dict) : A :=
  match d with
  | [] => missing
  | (k', v) :: d' => if String.eqb k' k then found v else dict_get_k d'
  end.
End dict_get_k.

(** Equality of values, computed. *)
Fixpoint pyval_eqb (a b : pyval) {struct a} : bool :=
  match a, b with
  | PNone, PNone => true
  | PBool x, PBool y => Bool.eqb x y
  | PInt x, PInt y => Z.eqb x y
  | PStr x, PStr y => String.eqb x y
  | PList x, PList y =>
      (fix go (x y : list pyval) {struct x} : bool :=
         match x, y with
         | [], [] => true
         | u :: x', v :: y' => pyval_eqb u v && go x' y'
         | _, _ => false
         end) x y
  | PDict x, PDict y =>
      (fix go (x y : dict) {struct x} : bool :=
         match x, y with
         | [], [] => true
         | (j, u) :: x', (k, v) :: y' =>
             String.eqb j k && pyval_eqb u v && go x' y'
         | _, _ => false
         end) x y
  | _, _ => false
  end.

(** ** Exceptions and the handler monad *)

(** The exceptions a handler can end with.  [BadSignature] is what
    [Signer.unsign] raises and [ValueError] what a JSON decoder raises; the
    specification calls both [IntegrityError].  The last four are raised by
    the component layer. *)
Inductive exn : Type :=
| KeyError (k : string)
| TypeError
| AttributeError
| BadSignature
| ValueError
| UnknownComponentType
| UnknownComponent
| UnknownHandler
| CollaboratorError.

Inductive result (A : Type) : Type :=
| Ok (a : A)
| Raise (e : exn).
Arguments Ok {A} a.
Arguments Raise {A} e.

(** [obj[k]] for a string key: a dictionary is looked up, a list or a string
    cannot be indexed by a string, the other values cannot be indexed. *)
Definition subscript (obj : pyval) (k : string) : result pyval :=
  match obj with
  | PDict d =>
      match dict_get k d with
      | Some v => Ok v
      | None => Raise (KeyError k)
      end
  | _ => Raise TypeError
  end.

(** Binding the arguments of a call to the parameters of a method without
    defaults: positional arguments fill the parameters from the left, keyword
    arguments the named ones; too many, unknown, doubled or missing arguments
    are a [TypeError], raised before the body runs. *)
Fixpoint bind_positional (params : list string) (pos : list pyval)
  : result (dict * list string) :=
  match pos, params with
  | [], _ => Ok ([], params)
  | _ :: _, [] => Raise TypeError
  | v :: pos', p :: params' =>
      match bind_positional params' pos' with
      | Ok (bound, rest) => Ok ((p, v) :: bound, rest)
      | Raise e => Raise e
      end
  end.

Fixpoint bind_keywords (rest : list string) (kw : dict) : result dict :=
  match rest with
  | [] => match kw with [] => Ok [] | _ :: _ => Raise TypeError end
  | p :: rest' =>
      match dict_get p kw with
      | None => Raise TypeError
      | Some v =>
          match bind_keywords rest'
                  (filter (fun kv => negb (String.eqb (fst kv) p)) kw) with
          | Ok bound => Ok ((p, v) :: bound)
          | Raise e => Raise e
          end
      end
  end.

Definition bind_args (params : list string) (pos : list pyval) (kw : dict)
  : result (list pyval) :=
  match bind_positional params pos with
  | Raise e => Raise e
  | Ok (bound, rest) =>
      match bind_keywords rest kw with
      | Raise e => Raise e
      | Ok bound' => Ok (map snd (bound ++ bound'))
      end
  end.

(** ** The component tree *)

(** A row of the todo application's [Item] table. *)
Record Item : Type := mkItem {
  item_id : Z;
  item_text : string;
  item_completed : bool
}.

(** What an attribute of a component instance holds: a value that came
    with the arguments, a row of the data store or a query result. *)
Inductive attr : Type :=
| AVal (v : pyval)
| AItem (it : Item)
| AItems (its : list Item).

(** Modelled from the spec: reactor/component.py, class [Component].  An
    instance has its tag and its client-supplied id, its component-defined
    fields, the topics it subscribed to, whether it asked for its own
    destruction, and the output last sent for it. *)
Record component : Type := mkComponent {
  c_tag : string;
  c_id : pyval;
  c_attrs : list (string * attr);
  c_subscriptions : list string;
  c_destroy_sent : bool;
  c_last_html : option string
}.

(** Modelled from the spec: reactor/component.py, the per-connection
    hierarchy of instances.  A node owns its children. *)
Inductive node : Type :=
| Node (c : component) (children : list node).

Abbreviation tree := (list node).

Fixpoint node_components (n : node) : list component :=
  match n with
  | Node c children => c :: flat_map node_components children
  end.

Definition tree_components (t : tree) : list component :=
  flat_map node_components t.

Definition has_id (id : pyval) (c : component) : bool :=
  pyval_eqb (c_id c) id.

Definition has_address (tag : string) (id : pyval) (c : component) : bool :=
  String.eqb (c_tag c) tag && pyval_eqb (c_id c) id.

(** Lookup by id alone, anywhere in the tree. *)
Definition tree_find (id : pyval) (t : tree) : option component :=
  find (has_id id) (tree_components t).

(** Lookup by address [(tag_name, id)]. *)
Definition tree_find_address (tag : string) (id : pyval) (t : tree)
  : option component :=
  find (has_address tag id) (tree_components t).

(** The tree without the instances under [id] and without what they own. *)
Fixpoint node_remove (id : pyval) (n : node) : option node :=
  match n with
  | Node c children =>
      if has_id id c then None
      else Some (Node c (omap (node_remove id) children))
  end.

Definition tree_remove (id : pyval) (t : tree) : tree :=
  omap (node_remove id) t.

(** The instances that [tree_remove] drops. *)
Fixpoint node_removed (id : pyval) (n : node) : list component :=
  match n with
  | Node c children =>
      if has_id id c then node_components n
      else flat_map (node_removed id) children
  end.

Definition tree_removed (id : pyval) (t : tree) : list component :=
  flat_map (node_removed id) t.

(** Writing an instance back under its id. *)
Fixpoint node_update (c' : component) (n : node) : node :=
  match n with
  | Node c children =>
      Node (if has_id (c_id c') c then c' else c)
           (map (node_update c') children)
  end.

Definition tree_update (c' : component) (t : tree) : tree :=
  map (node_update c') t.

(** ** The consumer and its monad *)

(** What the consumer does to the outside: calls to the channel layer and
    messages put on the socket. *)
Inductive effect : Type :=
| Accept
| GroupAdd (room channel : string)
| GroupDiscard (room channel : string)
| SendJson (content : pyval).

(** The attributes of a [ReactorConsumer], the channel layer it talks to
    (group name to member channels) and the trace of its effects, oldest
    first.  [root_component] is set by [connect]. *)
Record consumer : Type := mkConsumer {
  channel_name : string;
  subscriptions : gset string;
  root_component : option tree;
  channel_layer : gmap string (gset string);
  trace : list effect
}.

(** A handler runs on the consumer and ends normally or with an exception;
    what it changed before raising stays changed. *)
Definition M (A : Type) : Type := consumer -> result A * consumer.

#[global] Instance M_ret : MRet M := fun A a st => (Ok a, st).
#[global] Instance M_bind : MBind M := fun A B f m st =>
  match m st with
  | (Ok a, st') => f a st'
  | (Raise e, st') => (Raise e, st')
  end.

Definition raise {A} (e : exn) : M A := fun st => (Raise e, st).
Definition lift {A} (r : result A) : M A := fun st => (r, st).
Definition get : M consumer := fun st => (Ok st, st).
Definition modify (f : consumer -> consumer) : M unit :=
  fun st => (Ok tt, f st).

Fixpoint for_each {A} (body : A -> M unit) (l : list A) : M unit :=
  match l with
  | [] => mret tt
  | x :: l' => body x ;; for_each body l'
  end.

Definition set_subscriptions (s : gset string) (st : consumer) : consumer :=
  mkConsumer (channel_name st) s (root_component st) (channel_layer st)
             (trace st).

Definition set_root_component (t : tree) (st : consumer) : consumer :=
  mkConsumer (channel_name st) (subscriptions st) (Some t) (channel_layer st)
             (trace st).

Definition set_channel_layer (g : gmap string (gset string)) (st : consumer)
  : consumer :=
  mkConsumer (channel_name st) (subscriptions st) (root_component st) g
             (trace st).

Definition emit (e : effect) (st : consumer) : consumer :=
  mkConsumer (channel_name st) (subscriptions st) (root_component st)
             (channel_layer st) (trace st ++ [e]).

(** [self.root_component]: the attribute exists once [connect] has run. *)
Definition the_root_component : M tree := fun st =>
  match root_component st with
  | Some t => (Ok t, st)
  | None => (Raise AttributeError, st)
  end.

(** The members of a group. *)
Definition members (g : gmap string (gset string)) (room : string)
  : gset string := g !!! room.

(** Modelled from the spec: the Topic Registry behind [self.channel_layer].
    [group_add] adds the channel to the group's members and [group_discard]
    removes it; both are total and idempotent. *)
Definition group_add (room channel : string) : M unit :=
  modify (fun st =>
    emit (GroupAdd room channel)
      (set_channel_layer
         (<[room := {[channel]} ∪ members (channel_layer st) room]>
            (channel_layer st)) st)).

Definition group_discard (room channel : string) : M unit :=
  modify (fun st =>
    emit (GroupDiscard room channel)
      (set_channel_layer
         (<[room := members (channel_layer st) room ∖ {[channel]}]>
            (channel_layer st)) st)).

(** [self.send_json(content)] *)
Definition send_json (content : pyval) : M unit :=
  modify (emit (SendJson content)).

(** ** Component instances *)

(** Modelled from the spec: reactor/component.py, the methods of [Component]
    that [mount] calls.  [subscribe] records a topic for the instance, to be
    registered through the owning connection; [send_destroy] is the instance
    asking for its own destruction. *)
Definition new_component (tag : string) (id : pyval) : component :=
  mkComponent tag id [] [] false None.

Definition setattr (name : string) (a : attr) (c : component) : component :=
  mkComponent (c_tag c) (c_id c)
    ((name, a) :: filter (fun kv => negb (String.eqb (fst kv) name)) (c_attrs c))
    (c_subscriptions c) (c_destroy_sent c) (c_last_html c).

Definition component_subscribe (topic : string) (c : component) : component :=
  mkComponent (c_tag c) (c_id c) (c_attrs c)
    (if existsb (String.eqb topic) (c_subscriptions c)
     then c_subscriptions c else c_subscriptions c ++ [topic])
    (c_destroy_sent c) (c_last_html c).

Definition send_destroy (c : component) : component :=
  mkComponent (c_tag c) (c_id c) (c_attrs c) (c_subscriptions c) true
    (c_last_html c).

Definition set_last_html (html : string) (c : component) : component :=
  mkComponent (c_tag c) (c_id c) (c_attrs c) (c_subscriptions c)
    (c_destroy_sent c) (Some html).

(** A keyword parameter with a default. *)
Definition kwarg (name : string) (default : pyval) (kwargs : dict) : pyval :=
  match dict_get name kwargs with
  | Some v => v
  | None => default
  end.

(** [bool(a)] for what an attribute holds: a row is true, a query result is
    true when it has rows. *)
Definition attr_truthy (a : attr) : bool :=
  match a with
  | AVal v => truthy v
  | AItem _ => true
  | AItems its => match its with [] => false | _ => true end
  end.

(** ** tests/fision/todo/live.py: the [mount] methods *)

Section Todo.

(** The data store: [Item.objects.all()] and
    [Item.objects.filter(id=...).first()]. *)
Variable Item_objects_all : list Item.
Variable Item_objects_filter_id_first : pyval -> option Item.

(** [XTodoList.mount(self, showing='all', new_item='', **kwargs)] *)
Definition XTodoList_mount (self : component) (kwargs : dict)
  : result component :=
  let showing := kwarg "showing" (PStr "all") kwargs in
  let new_item := kwarg "new_item" (PStr EmptyString) kwargs in
  let self := setattr "showing" (AVal showing) self in
  let self := setattr "new_item" (AVal new_item) self in
  Ok (component_subscribe "item.new" self).

(** [XTodoList.receive_show(self, showing, **kwargs)] *)
Definition XTodoList_receive_show (self : component) (kwargs : dict)
  : result component :=
  match dict_get "showing" kwargs with
  | Some showing => Ok (setattr "showing" (AVal showing) self)
  | None => Raise TypeError
  end.

(** [XTodoCounter.mount(self, items=None, *args, **kwargs)] *)
Definition XTodoCounter_mount (self : component) (kwargs : dict)
  : result component :=
  let items := kwarg "items" PNone kwargs in
  let self :=
    setattr "items"
      (if truthy items then AVal items else AItems Item_objects_all) self in
  Ok (component_subscribe "item" self).

(** [XTodoItem.mount(self, item=None, editing=False, showing='all',
    **kwargs)] on the arguments as the caller gave them.  The [item] is a
    row of the store when a template passes one, [None] or another plain
    value otherwise.  A true [item] is kept and no query is made: a row has
    an [id], which names the topic; a true plain value and a query result
    have no attribute [id].  A false [item] gives way to the row the store
    has under the component's id, if any; a row is always true. *)
Definition XTodoItem_mount_with (self : component) (item : attr)
    (editing showing : pyval) : result component :=
  let self := setattr "editing" (AVal editing) self in
  let self := setattr "showing" (AVal showing) self in
  if attr_truthy item then
    let self := setattr "item" item self in
    match item with
    | AItem it =>
        Ok (component_subscribe ("item." ++ pretty (item_id it)) self)
    | _ => Raise AttributeError
    end
  else
    match Item_objects_filter_id_first (c_id self) with
    | Some it =>
        let self := setattr "item" (AItem it) self in
        Ok (component_subscribe ("item." ++ pretty (item_id it)) self)
    | None =>
        let self := setattr "item" (AVal PNone) self in
        Ok (send_destroy self)
    end.

(** The same method on the keyword arguments of a decoded state, as a join
    calls it: what comes from a decoded document is a plain value, never a
    row. *)
Definition XTodoItem_mount (self : component) (kwargs : dict)
  : result component :=
  XTodoItem_mount_with self
    (AVal (kwarg "item" PNone kwargs))
    (kwarg "editing" (PBool false) kwargs)
    (kwarg "showing" (PStr "all") kwargs).

(** Modelled from the spec: reactor/component.py, the registry
    [Component._all] of the tags declared by class definition, here the
    three classes of live.py. *)
Definition registered_mount (tag : string)
  : option (component -> dict -> result component) :=
  if String.eqb tag "XTodoList" then Some XTodoList_mount
  else if String.eqb tag "XTodoCounter" then Some XTodoCounter_mount
  else if String.eqb tag "XTodoItem" then Some XTodoItem_mount
  else None.

End Todo.

(** ** reactor/channels.py: [ReactorConsumer] *)

(** The methods [getattr(self, f'receive_{name}')] can find: the three
    commands and [receive_json] itself. *)
Inductive receive_method : Type :=
| Receive_join
| Receive_user_event
| Receive_leave
| Receive_json.

(** A name that is not a string formats to a text that names no method. *)
Definition getattr_receive (name : pyval) : result receive_method :=
  match name with
  | PStr s =>
      if String.eqb s "join" then Ok Receive_join
      else if String.eqb s "user_event" then Ok Receive_user_event
      else if String.eqb s "leave" then Ok Receive_leave
      else if String.eqb s "json" then Ok Receive_json
      else Raise AttributeError
  | _ => Raise AttributeError
  end.

(** Unpacking a payload into keyword arguments: it has to be a mapping. *)
Definition keywords (payload : pyval) : result dict :=
  match payload with
  | PDict kw => Ok kw
  | _ => Raise TypeError
  end.

Definition receive_join_params : list string := ["tag_name"; "id"; "state"].
Definition receive_user_event_params : list string :=
  ["id"; "name"; "implicit_args"; "explicit_args"].
Definition receive_leave_params : list string := ["id"].

(** Calling a method of one, three or four parameters. *)
Definition call1 (params : list string) (f : pyval -> M unit)
    (pos : list pyval) (kw : dict) : M unit :=
  args ← lift (bind_args params pos kw);
  match args with
  | [a] => f a
  | _ => raise TypeError
  end.

Definition call3 (params : list string) (f : pyval -> pyval -> pyval -> M unit)
    (pos : list pyval) (kw : dict) : M unit :=
  args ← lift (bind_args params pos kw);
  match args with
  | [a; b; c] => f a b c
  | _ => raise TypeError
  end.

Definition call4 (params : list string)
    (f : pyval -> pyval -> pyval -> pyval -> M unit)
    (pos : list pyval) (kw : dict) : M unit :=
  args ← lift (bind_args params pos kw);
  match args with
  | [a; b; c; d] => f a b c d
  | _ => raise TypeError
  end.

Definition room_event (room : string) : pyval :=
  PDict [("room_name", PStr room)].

(** What the consumer takes from outside this module. *)
Class Collaborators : Type := {
  (** [Signer().unsign] and [json.loads] *)
  unsign : pyval -> result string;
  json_loads : string -> result pyval;
  (** [reactor.utils.extract_data] *)
  extract_data : pyval -> result dict;
  (** the rendering collaborator: the output of an instance and the diff of
      the output last sent against the new one, [PNone] for no change *)
  render_html : component -> string;
  diff_html : option string -> string -> pyval;
  (** the constructor of a tag and the handler of a tag for an event name *)
  mount_of : string -> option (component -> dict -> result component);
  handler_of :
    string -> string -> option (component -> dict -> result component);
  (** [{name: c.extends for name, c in Component._all.items()}] *)
  component_types : dict
}.

Section Consumer.

Context `{env : Collaborators}.

(** *** Group operations *)

(** A room name that is not a string is either unhashable or refused by
    the channel layer. *)
Definition subscribe (event : pyval) : M unit :=
  room_name ← lift (subscript event "room_name");
  match room_name with
  | PStr room =>
      st ← get;
      if decide (room ∈ subscriptions st) then mret tt
      else
        group_add room (channel_name st) ;;
        modify (fun st => set_subscriptions ({[room]} ∪ subscriptions st) st)
  | _ => raise TypeError
  end.

Definition unsubscribe (event : pyval) : M unit :=
  room_name ← lift (subscript event "room_name");
  match room_name with
  | PStr room =>
      st ← get;
      if decide (room ∈ subscriptions st) then
        group_discard room (channel_name st) ;;
        modify (fun st => set_subscriptions (subscriptions st ∖ {[room]}) st)
      else mret tt
  | PList _ | PDict _ => raise TypeError
  | _ => mret tt
  end.

(** *** Channel events *)

Definition connect : M unit :=
  modify (emit Accept) ;;
  modify (set_root_component []) ;;
  send_json (PDict [("type", PStr "components");
                    ("component_types", PDict component_types)]).

Definition disconnect (close_code : pyval) : M unit :=
  st ← get;
  for_each (fun room => unsubscribe (room_event room))
           (elements (subscriptions st)).

(** *** Broadcasters *)

Definition render (event : pyval) : M unit :=
  html_diff ← lift (subscript event "html_diff");
  if truthy html_diff then
    _ ← lift (subscript event "id");
    match event with
    | PDict d => send_json (PDict (dict_set "type" (PStr "render") d))
    | _ => raise TypeError
    end
  else mret tt.

Definition visit (event : pyval) : M unit :=
  _ ← lift (subscript event "action");
  _ ← lift (subscript event "url");
  send_json event.

(** *** The component layer *)

(** Modelled from the spec: reactor/component.py, [RootComponent.pop], the
    specification's [destroy(id)]: the instance and what it owns leave the
    tree and every topic they subscribed to is released through the
    connection.  An id that is not in the tree changes nothing. *)
Definition pop (id : pyval) : M unit :=
  t ← the_root_component;
  modify (set_root_component (tree_remove id t)) ;;
  for_each
    (fun c => for_each (fun topic => unsubscribe (room_event topic))
                       (c_subscriptions c))
    (tree_removed id t).

Definition receive_leave (id : pyval) : M unit :=
  pop id.

Definition remove (event : pyval) : M unit :=
  id ← lift (subscript event "id");
  receive_leave id ;;
  match event with
  | PDict d => send_json (PDict (dict_set "type" (PStr "remove") d))
  | _ => raise TypeError
  end.

(** Modelled from the spec: reactor/component.py,
    [RootComponent.get_or_create].  An address already in the tree gives
    the instance there and ignores the arguments.  Otherwise the tag's
    constructor runs; the topics it subscribed to are registered through
    the connection; an instance that asked for its destruction is
    announced with a [remove] event and gets no slot; any other is put
    under the root. *)
Definition get_or_create (tag_name id : pyval) (args : dict) : M component :=
  t ← the_root_component;
  match tag_name with
  | PStr tag =>
      match tree_find_address tag id t with
      | Some c => mret c
      | None =>
          match mount_of tag with
          | None => raise UnknownComponentType
          | Some mount =>
              c ← lift (mount (new_component tag id) args);
              for_each (fun topic => subscribe (room_event topic))
                       (c_subscriptions c) ;;
              if c_destroy_sent c then
                remove (PDict [("id", id)]) ;; mret c
              else
                modify (set_root_component (t ++ [Node c []])) ;; mret c
          end
      end
  | _ => raise UnknownComponentType
  end.

(** Modelled from the spec: reactor/component.py, [Component._render_diff],
    the specification's [render_diff]: the diff of the output last sent
    against the current one, which becomes the output last sent.  An
    instance that asked for its destruction renders nothing. *)
Definition _render_diff (c : component) : M pyval :=
  if c_destroy_sent c then mret PNone
  else
    t ← the_root_component;
    let html := render_html c in
    modify (set_root_component (tree_update (set_last_html html c) t)) ;;
    mret (diff_html (c_last_html c) html).

(** Modelled from the spec: reactor/component.py,
    [RootComponent.dispatch_user_event]: the instance is looked up by id
    anywhere in the tree, its handler for the event name runs on the
    arguments and the diff is rendered. *)
Definition dispatch_user_event (id name : pyval) (kwargs : dict) : M pyval :=
  t ← the_root_component;
  match tree_find id t with
  | None => raise UnknownComponent
  | Some c =>
      match name with
      | PStr event_name =>
          match handler_of (c_tag c) event_name with
          | None => raise UnknownHandler
          | Some handler =>
              c' ← lift (handler c kwargs);
              modify (set_root_component (tree_update c' t)) ;;
              _render_diff c'
          end
      | _ => raise UnknownHandler
      end
  end.

(** *** Dispatching *)

(** [get_or_create(tag_name, id=id, **state)]: the state has to be a
    mapping and cannot give [id] a second time. *)
Definition receive_join (tag_name id state : pyval) : M unit :=
  signed ← lift (unsign state);
  state ← lift (json_loads signed);
  _ ← the_root_component;
  args ← lift (keywords state);
  match dict_get "id" args with
  | Some _ => raise TypeError
  | None =>
      component ← get_or_create tag_name id args;
      html_diff ← _render_diff component;
      render (PDict [("id", c_id component); ("html_diff", html_diff)])
  end.

(** [explicit_args or {}] and [dict(extract_data(implicit_args),
    **explicit_args)] *)
Definition user_event_kwargs (implicit_args explicit_args : pyval)
  : result dict :=
  let explicit_args := py_or explicit_args (PDict []) in
  match extract_data implicit_args with
  | Raise e => Raise e
  | Ok data =>
      match explicit_args with
      | PDict explicit => Ok (dict_update data explicit)
      | _ => Raise TypeError
      end
  end.

Definition receive_user_event (id name implicit_args explicit_args : pyval)
  : M unit :=
  kwargs ← lift (user_event_kwargs implicit_args explicit_args);
  html_diff ← dispatch_user_event id name kwargs;
  render (PDict [("id", id); ("html_diff", html_diff)]).

(** The command names the method and the payload gives its keyword
    arguments.  A command [json] re-enters the method on the request of its
    payload; the nesting, which the interpreter's recursion limit bounds, is
    followed here as deep as the request goes. *)
Fixpoint receive_json (request : pyval) {struct request} : M unit :=
  match request with
  | PDict d =>
      dict_get_k "command" (raise (KeyError "command")) (fun name =>
      dict_get_k "payload" (raise (KeyError "payload")) (fun payload =>
        match getattr_receive name with
        | Raise e => raise e
        | Ok method =>
            match payload with
            | PDict kw =>
                match method with
                | Receive_join =>
                    call3 receive_join_params receive_join [] kw
                | Receive_user_event =>
                    call4 receive_user_event_params receive_user_event [] kw
                | Receive_leave =>
                    call1 receive_leave_params receive_leave [] kw
                | Receive_json =>
                    match kw with
                    | [(k, request')] =>
                        if String.eqb k "request" then receive_json request'
                        else raise TypeError
                    | _ => raise TypeError
                    end
                end
            | _ => raise TypeError
            end
        end) d) d
  | _ => raise TypeError
  end.

(** *** Internal event *)

Definition send_component (event : pyval) : M unit :=
  state ← lift (subscript event "state");
  id ← lift (subscript state "id");
  name ← lift (subscript event "name");
  state' ← lift (subscript event "state");
  call4 receive_user_event_params receive_user_event [id; name; state'] [].


End Consumer.
(** The topics of a list that a run of [unsubscribe] over it releases: those
    in the subscription set when their turn comes. *)
Fixpoint released (l : list string) (s : gset string) : list string :=
  match l with
  | [] => []
  | room :: l' =>
      if decide (room ∈ s) then room :: released l' (s ∖ {[room]})
      else released l' s
  end.


(** The groups the consumer's channel is a member of are among its
    subscriptions: the channel layer holds nothing the consumer lost track
    of. *)
Definition tracked (st : consumer) : Prop :=
  forall room,
    channel_name st ∈ members (channel_layer st) room ->
    room ∈ subscriptions st.

(** ** A sample environment and sample sessions *)

(** A signer whose signature is the marker [ok:] in front of the value. *)
Definition example_unsign (signed : pyval) : result string :=
  match signed with
  | PStr s =>
      if String.prefix "ok:" s
      then Ok (String.substring 3 (String.length s - 3) s)
      else Raise BadSignature
  | _ => Raise TypeError
  end.

(** A decoder for the two documents the samples use. *)
Definition example_json_loads (s : string) : result pyval :=
  if String.eqb s "{}" then Ok (PDict [])
  else if String.eqb s "null" then Ok PNone
  else Raise ValueError.

Definition example_extract_data (implicit_args : pyval) : result dict :=
  match implicit_args with
  | PDict d => Ok d
  | _ => Raise AttributeError
  end.

Definition example_render_html (c : component) : string :=
  "<" ++ c_tag c ++ ">".

Definition example_diff_html (last : option string) (html : string) : pyval :=
  match last with
  | Some old => if String.eqb old html then PNone else PStr html
  | None => PStr html
  end.

Definition example_items : list Item := [mkItem 1 "milk" false].

Definition example_first (id : pyval) : option Item :=
  match id with
  | PInt z => find (fun it => Z.eqb (item_id it) z) example_items
  | _ => None
  end.

Definition example_handler_of (tag name : string)
  : option (component -> dict -> result component) :=
  if String.eqb tag "XTodoList" && String.eqb name "show"
  then Some XTodoList_receive_show else None.

Definition example_env : Collaborators := {|
  unsign := example_unsign;
  json_loads := example_json_loads;
  extract_data := example_extract_data;
  render_html := example_render_html;
  diff_html := example_diff_html;
  mount_of := registered_mount example_items example_first;
  handler_of := example_handler_of;
  component_types :=
    [("XTodoList", PStr "div"); ("XTodoCounter", PStr "div");
     ("XTodoItem", PStr "li")]
|}.

Definition example_channel : string := "specific.inmemory!a1".

(** A consumer right after [connect], its trace left out. *)
Definition example_connected : consumer :=
  mkConsumer example_channel ∅ (Some []) ∅ [].

Definition example_item : component :=
  mkComponent "XTodoItem" (PInt 1)
    [("item", AItem (mkItem 1 "milk" false));
     ("showing", AVal (PStr "all")); ("editing", AVal (PBool false))]
    ["item.1"] false (Some "<XTodoItem>").

Definition example_counter : component :=
  mkComponent "XTodoCounter" (PInt 2) [("items", AItems example_items)]
    ["item"] false (Some "<XTodoCounter>").

(** A consumer with an item and a counter in its tree, subscribed to their
    topics. *)
Definition example_session : consumer :=
  mkConsumer example_channel {[ "item.1"; "item" ]}
    (Some [Node example_item []; Node example_counter []])
    {[ "item.1" := {[ example_channel ]}; "item" := {[ example_channel ]} ]}
    [].

(** The wire shape of an inbound command. *)
Definition command (name : string) (payload : dict) : dict :=
  [("command", PStr name); ("payload", PDict payload)].

(** ** tests/fision/todo/live.py: the methods without a data store write *)

(** [self.<name>] *)
Fixpoint attrs_get (name : string) (attrs : list (string * attr))
  : option attr :=
  match attrs with
  | [] => None
  | (k, a) :: attrs' => if String.eqb k name then Some a else attrs_get name attrs'
  end.

Definition getattr (name : string) (self : component) : result attr :=
  match attrs_get name (c_attrs self) with
  | Some a => Ok a
  | None => Raise AttributeError
  end.

(** [a == 'text'] *)
Definition attr_is (text : string) (a : attr) : bool :=
  match a with
  | AVal v => pyval_eqb v (PStr text)
  | _ => false
  end.

(** [self.item.completed]: [None] and the other plain values have no such
    attribute.  A query result is never stored as [item] by [mount]. *)
Definition item_completed_of (self : component) : result bool :=
  match getattr "item" self with
  | Ok (AItem it) => Ok (item_completed it)
  | Ok _ => Raise AttributeError
  | Raise e => Raise e
  end.

(** [XTodoList.serialize]: [dict(id=self.id, new_item=self.new_item,
    showing=self.showing)] *)
Definition XTodoList_serialize (self : component)
  : result (list (string * attr)) :=
  match getattr "new_item" self with
  | Raise e => Raise e
  | Ok new_item =>
      match getattr "showing" self with
      | Raise e => Raise e
      | Ok showing =>
          Ok [("id", AVal (c_id self)); ("new_item", new_item);
              ("showing", showing)]
      end
  end.

(** [XTodoItem.serialize]: [dict(id=self.id, editing=self.editing,
    showing=self.showing)] *)
Definition XTodoItem_serialize (self : component)
  : result (list (string * attr)) :=
  match getattr "editing" self with
  | Raise e => Raise e
  | Ok editing =>
      match getattr "showing" self with
      | Raise e => Raise e
      | Ok showing =>
          Ok [("id", AVal (c_id self)); ("editing", editing);
              ("showing", showing)]
      end
  end.

(** [XTodoItem.is_visible]: [and] binds tighter than [or], and both stop at
    the first operand that decides, so that the item is looked at only for
    the filters [completed] and [active]. *)
Definition XTodoItem_is_visible (self : component) : result bool :=
  match getattr "showing" self with
  | Raise e => Raise e
  | Ok showing =>
      if attr_is "all" showing then Ok true
      else if attr_is "completed" showing then item_completed_of self
      else if attr_is "active" showing then
        match item_completed_of self with
        | Ok completed => Ok (negb completed)
        | Raise e => Raise e
        end
      else Ok false
  end.

(** [XTodoItem.receive_toggle_editing(self, **kwargs)] *)
Definition XTodoItem_receive_toggle_editing (self : component) (kwargs : dict)
  : result component :=
  match item_completed_of self with
  | Raise e => Raise e
  | Ok completed =>
      if negb completed then
        match getattr "editing" self with
        | Raise e => Raise e
        | Ok editing =>
            Ok (setattr "editing" (AVal (PBool (negb (attr_truthy editing)))) self)
        end
      else Ok self
  end.

(** The arguments a serialized state gives back to [mount]; the id travels
    beside them. *)
Fixpoint state_of (serialized : list (string * attr)) : dict :=
  match serialized with
  | [] => []
  | (k, AVal v) :: rest =>
      if String.eqb k "id" then state_of rest else (k, v) :: state_of rest
  | _ :: rest => state_of rest
  end.

(** ** The life of a consumer *)

(** [ReactorConsumer.__init__]: no subscription; the runtime gives the
    channel its name and the tree comes with [connect]. *)
Definition new_consumer (channel : string) (layer : gmap string (gset string))
  : consumer :=
  mkConsumer channel ∅ None layer [].

(** The rooms a trace has added and not discarded since. *)
Definition joined_step (s : gset string) (e : effect) : gset string :=
  match e with
  | GroupAdd room _ => {[room]} ∪ s
  | GroupDiscard room _ => s ∖ {[room]}
  | _ => s
  end.

Definition joined (tr : list effect) : gset string :=
  fold_left joined_step tr ∅.

(** Every call to the channel layer is for the consumer's own channel. *)
Definition own_call (channel : string) (e : effect) : Prop :=
  match e with
  | GroupAdd _ c | GroupDiscard _ c => c = channel
  | _ => True
  end.

(** The subscription set is what the trace has joined, and the trace has
    calls for the own channel only. *)
Definition balanced (st : consumer) : Prop :=
  subscriptions st = joined (trace st) ∧
  Forall (own_call (channel_name st)) (trace st).

(** A handler keeps a property of the consumer, however it ends. *)
Definition preserves {A} (P : consumer -> Prop) (m : M A) : Prop :=
  forall st, P st -> P (snd (m st)).

(** What the runtime hands to the consumer: the socket's events and the
    messages of the channel layer, by the name of their method. *)
Inductive delivery : Type :=
| Connect
| Disconnect (close_code : pyval)
| Receive (request : pyval)
| Subscribe (event : pyval)
| Unsubscribe (event : pyval)
| SendComponent (event : pyval)
| Render (event : pyval)
| Remove (event : pyval)
| Visit (event : pyval).

Definition handle `{env : Collaborators} (x : delivery) : M unit :=
  match x with
  | Connect => connect
  | Disconnect close_code => disconnect close_code
  | Receive request => receive_json request
  | Subscribe event => subscribe event
  | Unsubscribe event => unsubscribe event
  | SendComponent event => send_component event
  | Render event => render event
  | Remove event => remove event
  | Visit event => visit event
  end.

(** The consumer after a history of deliveries, each one starting from what
    the one before left, also when that one raised. *)
Definition after `{env : Collaborators} (history : list delivery)
    (st : consumer) : consumer :=
  fold_left (fun st x => snd (handle x st)) history st.

(** The connection as the runtime keeps it.  [ReactorConsumer] has its loop
    from [JsonWebsocketConsumer] of the channels library, which is not part
    of these sources: the loop calls the method a delivery names and catches
    nothing, and [ReactorConsumer] has no handler of exceptions of its own,
    so that an exception a method lets escape ends the consumer and, with
    it, the connection. *)
Inductive connection : Type :=
| Open (st : consumer)
| Ended (e : exn) (st : consumer).

Definition deliver `{env : Collaborators} (x : delivery) (c : connection)
  : connection :=
  match c with
  | Open st =>
      match handle x st with
      | (Ok _, st') => Open st'
      | (Raise e, st') => Ended e st'
      end
  | Ended e st => Ended e st
  end.

(** The parameters of the method a command name selects. *)
Definition command_params (name : string) : option (list string) :=
  if String.eqb name "join" then Some receive_join_params
  else if String.eqb name "user_event" then Some receive_user_event_params
  else if String.eqb name "leave" then Some receive_leave_params
  else None.

(** A property of the consumer that sending on the socket and replacing the
    tree do not disturb and that [subscribe] and [unsubscribe] keep. *)
Definition framed (P : consumer -> Prop) : Prop :=
  (forall st, P st -> P (emit Accept st)) ∧
  (forall content st, P st -> P (emit (SendJson content) st)) ∧
  (forall t st, P st -> P (set_root_component t st)) ∧
  (forall event, preserves P (subscribe event)) ∧
  (forall event, preserves P (unsubscribe event)).

(** ** Values *)

Lemma pyval_induction (P : pyval -> Prop) :
  P PNone ->
  (forall b, P (PBool b)) ->
  (forall z, P (PInt z)) ->
  (forall s, P (PStr s)) ->
  (forall l, Forall P l -> P (PList l)) ->
  (forall d, Forall (fun kv => P (snd kv)) d -> P (PDict d)) ->
  forall v, P v.
Proof.
  intros HN HB HI HS HL HD. fix IH 1. intros [|b|z|s|l|d].
  - exact HN.
  - apply HB.
  - apply HI.
  - apply HS.
  - apply HL. induction l as [|v l IHl]; constructor; [apply IH|exact IHl].
  - apply HD. induction d as [|[k v] d IHd]; constructor; [apply IH|exact IHd].
Qed.

(** [pyval_eqb] decides equality. *)
Lemma pyval_eqb_eq (a : pyval) : forall b, pyval_eqb a b = true <-> a = b.
Proof.
  induction a as [|x|x|x|l IHl|d IHd] using pyval_induction;
    intros [|y|y|y|l'|d']; simpl; try (split; [discriminate|discriminate]);
    try (split; reflexivity).
  - rewrite Bool.eqb_true_iff. split; congruence.
  - rewrite Z.eqb_eq. split; congruence.
  - rewrite String.eqb_eq. split; congruence.
  - revert l'. induction IHl as [|u l Hu _ IH]; intros [|v l'];
      try (split; [discriminate|discriminate]); [split; reflexivity|].
    rewrite andb_true_iff, Hu, IH. split.
    + intros [-> H]. injection H as ->. reflexivity.
    + intros H. injection H as -> ->. split; reflexivity.
  - revert d'. induction IHd as [|[j u] d Hu _ IH]; intros [|[k v] d'];
      try (split; [discriminate|discriminate]); [split; reflexivity|].
    simpl in Hu. rewrite !andb_true_iff, String.eqb_eq, Hu, IH. split.
    + intros [[-> ->] H]. injection H as ->. reflexivity.
    + intros H. injection H as -> -> ->. repeat split; reflexivity.
Qed.

Lemma pyval_eqb_refl (a : pyval) : pyval_eqb a a = true.
Proof. apply pyval_eqb_eq. reflexivity. Qed.
(** ** Running handlers *)

Lemma dict_get_k_get {A} (k : string) (missing : A) (found : pyval -> A) d :
  dict_get_k k missing found d =
  match dict_get k d with Some v => found v | None => missing end.
Proof.
  induction d as [|[k' v] d IH]; simpl; [reflexivity|].
  destruct (String.eqb k' k); [reflexivity|exact IH].
Qed.

Lemma dict_get_set_eq k v d : dict_get k (dict_set k v d) = Some v.
Proof.
  induction d as [|[k' v'] d IH]; simpl.
  - rewrite String.eqb_refl. reflexivity.
  - destruct (String.eqb k' k) eqn:E; simpl; rewrite E; [reflexivity|exact IH].
Qed.

Lemma dict_get_set_ne k k' v d :
  k <> k' -> dict_get k' (dict_set k v d) = dict_get k' d.
Proof.
  intros Hne. induction d as [|[j w] d IH]; simpl.
  - destruct (String.eqb_spec k k'); [contradiction|reflexivity].
  - destruct (String.eqb_spec j k) as [->|Hjk]; simpl.
    + destruct (String.eqb_spec k k'); [contradiction|reflexivity].
    + destruct (String.eqb j k'); [reflexivity|exact IH].
Qed.

Lemma dict_get_absent k (d : dict) : ~ In k (map fst d) -> dict_get k d = None.
Proof.
  induction d as [|[j v] d IH]; intros H; simpl; [reflexivity|].
  destruct (String.eqb_spec j k) as [->|Hne].
  - exfalso. apply H. left. reflexivity.
  - apply IH. intros Hin. apply H. right. exact Hin.
Qed.

Lemma dict_update_get k (b : dict) : forall a : dict,
  List.NoDup (map fst b) ->
  dict_get k (dict_update a b) =
  match dict_get k b with
  | Some v => Some v
  | None => dict_get k a
  end.
Proof.
  induction b as [|[j w] b IH]; intros a Hnd; [reflexivity|].
  inversion Hnd as [|? ? Hj Hb]; subst.
  change (dict_update a ((j, w) :: b)) with (dict_update (dict_set j w a) b).
  rewrite (IH _ Hb). simpl.
  destruct (String.eqb_spec j k) as [->|Hne].
  - rewrite (dict_get_absent k b Hj). apply dict_get_set_eq.
  - rewrite (dict_get_set_ne j k w a Hne). reflexivity.
Qed.

Lemma bind_ok {A B} (m : M A) (f : A -> M B) st a st' :
  m st = (Ok a, st') -> (m ≫= f) st = f a st'.
Proof. intros H. unfold mbind, M_bind. rewrite H. reflexivity. Qed.

Lemma bind_raise {A B} (m : M A) (f : A -> M B) st e st' :
  m st = (Raise e, st') -> (m ≫= f) st = (Raise e, st').
Proof. intros H. unfold mbind, M_bind. rewrite H. reflexivity. Qed.

Ltac run_handler :=
  unfold mbind, M_bind, mret, M_ret, lift, raise, get, modify,
    the_root_component in *; simpl in *.

Lemma released_elem room l : forall s : gset string,
  room ∈ l -> room ∈ s -> room ∈ released l s.
Proof.
  induction l as [|r l IH]; intros s Hl Hs; simpl.
  - inversion Hl.
  - destruct (decide (r = room)) as [->|Hne].
    + destruct (decide (room ∈ s)); [left|contradiction].
    + assert (room ∈ l) by (inversion Hl; subst; [contradiction|assumption]).
      destruct (decide (r ∈ s)).
      * right. apply IH; [assumption|set_solver].
      * apply IH; assumption.
Qed.

Lemma released_sub room l : forall s : gset string,
  room ∈ released l s -> room ∈ l ∧ room ∈ s.
Proof.
  induction l as [|r l IH]; intros s H; simpl in H.
  - inversion H.
  - destruct (decide (r ∈ s)).
    + destruct (proj1 (elem_of_cons _ _ _) H) as [Heq|Hin].
      * subst room. split; [left|assumption].
      * destruct (IH _ Hin) as [? ?]. split; [right; assumption|set_solver].
    + destruct (IH _ H). split; [right|]; assumption.
Qed.

Lemma members_insert (g : gmap string (gset string)) room s room' :
  members (<[room := s]> g) room' =
  if decide (room = room') then s else members g room'.
Proof.
  unfold members. destruct (decide (room = room')) as [->|Hne].
  - apply lookup_total_insert_eq.
  - apply lookup_total_insert_ne; assumption.
Qed.

Lemma unsubscribe_in room st :
  room ∈ subscriptions st ->
  unsubscribe (room_event room) st =
  (Ok tt,
   set_subscriptions (subscriptions st ∖ {[room]})
     (emit (GroupDiscard room (channel_name st))
        (set_channel_layer
           (<[room := members (channel_layer st) room ∖ {[channel_name st]}]>
              (channel_layer st)) st))).
Proof.
  intros H. unfold unsubscribe, room_event, group_discard. run_handler.
  destruct (decide (room ∈ subscriptions st)); [reflexivity|contradiction].
Qed.

Lemma unsubscribe_notin room st :
  room ∉ subscriptions st ->
  unsubscribe (room_event room) st = (Ok tt, st).
Proof.
  intros H. unfold unsubscribe, room_event. run_handler.
  destruct (decide (room ∈ subscriptions st)); [contradiction|reflexivity].
Qed.

(** A run of [unsubscribe] over a list of topics ends normally; it takes
    the topics out of the subscription set, discards the channel from the
    groups of those it releases, and does nothing else. *)
Lemma unsubscribe_each l : forall st,
  exists st',
    for_each (fun room => unsubscribe (room_event room)) l st = (Ok tt, st') ∧
    channel_name st' = channel_name st ∧
    root_component st' = root_component st ∧
    subscriptions st' = subscriptions st ∖ list_to_set l ∧
    trace st' =
      (trace st ++
       map (fun room => GroupDiscard room (channel_name st))
           (released l (subscriptions st)))%list ∧
    (forall room,
       members (channel_layer st') room =
       if decide (room ∈ released l (subscriptions st))
       then members (channel_layer st) room ∖ {[channel_name st]}
       else members (channel_layer st) room).
Proof.
  induction l as [|r l IH]; intros st.
  - exists st. simpl. split_and!; try reflexivity.
    + set_solver.
    + rewrite app_nil_r. reflexivity.
  - simpl for_each. destruct (decide (r ∈ subscriptions st)) as [Hin|Hout].
    + pose proof (unsubscribe_in r st Hin) as Hr.
      match type of Hr with _ = (_, ?s) => set (st1 := s) in * end.
      destruct (IH st1) as (st' & Hrun & Hname & Hroot & Hsubs & Htrace & Hlayer).
      exists st'. erewrite bind_ok by exact Hr.
      split; [exact Hrun|]. split; [exact Hname|]. split; [exact Hroot|].
      split; [rewrite Hsubs; simpl; set_solver|].
      simpl released. destruct (decide (r ∈ subscriptions st)); [|contradiction].
      split.
      * rewrite Htrace. simpl. rewrite <- app_assoc. reflexivity.
      * intros room. rewrite Hlayer. simpl.
        rewrite members_insert.
        destruct (decide (r = room)) as [->|Hne].
        -- destruct (decide (room ∈ room :: _)) as [_|Hn]; [|exfalso; apply Hn; left].
           destruct (decide (room ∈ released l _)); [set_solver|reflexivity].
        -- destruct (decide (room ∈ released l (subscriptions st ∖ {[r]}))) as [H1|H1];
           destruct (decide (room ∈ r :: released l (subscriptions st ∖ {[r]}))) as [H2|H2];
             try reflexivity.
           ++ exfalso. apply H2. right. exact H1.
           ++ exfalso. inversion H2; subst; [congruence|contradiction].
    + pose proof (unsubscribe_notin r st Hout) as Hr.
      destruct (IH st) as (st' & Hrun & Hname & Hroot & Hsubs & Htrace & Hlayer).
      exists st'. erewrite bind_ok by exact Hr.
      split; [exact Hrun|]. split; [exact Hname|]. split; [exact Hroot|].
      split; [rewrite Hsubs; simpl; set_solver|].
      simpl released. destruct (decide (r ∈ subscriptions st)); [contradiction|].
      split; [exact Htrace|exact Hlayer].
Qed.

Lemma getattr_receive_unknown name :
  name <> PStr "join" -> name <> PStr "user_event" ->
  name <> PStr "leave" -> name <> PStr "json" ->
  getattr_receive name = Raise AttributeError.
Proof.
  intros H1 H2 H3 H4. destruct name as [| | |s| |]; try reflexivity.
  unfold getattr_receive.
  destruct (String.eqb_spec s "join"); [congruence|].
  destruct (String.eqb_spec s "user_event"); [congruence|].
  destruct (String.eqb_spec s "leave"); [congruence|].
  destruct (String.eqb_spec s "json"); [congruence|].
  reflexivity.
Qed.


(** ** The tree *)

Lemma node_induction (P : node -> Prop) :
  (forall c children, Forall P children -> P (Node c children)) ->
  forall n, P n.
Proof.
  intros step. fix IH 1. intros [c children]. apply step.
  induction children as [|n children IHc]; constructor.
  - apply IH.
  - exact IHc.
Qed.

Lemma find_none_iff {A} (f : A -> bool) (l : list A) :
  find f l = None <-> (forall x, In x l -> f x = false).
Proof.
  split.
  - intros H x Hx. exact (find_none f l H x Hx).
  - induction l as [|a l IH]; intros H; simpl; [reflexivity|].
    rewrite (H a (or_introl eq_refl)). apply IH.
    intros x Hx. apply H. right. exact Hx.
Qed.

Lemma node_remove_components id : forall n n' c,
  node_remove id n = Some n' -> In c (node_components n') -> has_id id c = false.
Proof.
  induction n as [c0 children IH] using node_induction.
  intros n' c Hrm Hc. simpl in Hrm.
  destruct (has_id id c0) eqn:Hc0; [discriminate|].
  injection Hrm as <-. simpl in Hc. destruct Hc as [<-|Hc]; [exact Hc0|].
  apply in_flat_map in Hc as (m' & Hm' & Hc).
  apply list_elem_of_In, list_elem_of_omap in Hm' as (m & Hm & Hrm).
  rewrite Forall_forall in IH. exact (IH m Hm m' c Hrm Hc).
Qed.

Lemma tree_find_remove id t : tree_find id (tree_remove id t) = None.
Proof.
  unfold tree_find, tree_remove, tree_components. apply find_none_iff.
  intros c Hc. apply in_flat_map in Hc as (n' & Hn' & Hc).
  apply list_elem_of_In, list_elem_of_omap in Hn' as (n & _ & Hrm).
  exact (node_remove_components id n n' c Hrm Hc).
Qed.

Lemma omap_cons_some {A B} (f : A -> option B) x y l :
  f x = Some y -> omap f (x :: l) = y :: omap f l.
Proof. intros H. change (omap f (x :: l)) with
  (match f x with Some y => y :: omap f l | None => omap f l end).
  rewrite H. reflexivity.
Qed.

Lemma node_remove_absent id : forall n,
  (forall c, In c (node_components n) -> has_id id c = false) ->
  node_remove id n = Some n ∧ node_removed id n = [].
Proof.
  induction n as [c0 children IH] using node_induction.
  intros Habs.
  assert (Hkids : omap (node_remove id) children = children ∧
                  flat_map (node_removed id) children = []).
  { assert (Hsub : forall c, In c (flat_map node_components children) ->
                             has_id id c = false).
    { intros c Hc. apply Habs. right. exact Hc. }
    clear Habs. induction children as [|m children IHc]; [split; reflexivity|].
    inversion IH as [|? ? Hm Hrest]; subst.
    destruct (Hm (fun c Hc => Hsub c (in_or_app _ _ _ (or_introl Hc)))) as [H1 H2].
    destruct (IHc Hrest (fun c Hc => Hsub c (in_or_app _ _ _ (or_intror Hc))))
      as [H3 H4].
    rewrite (omap_cons_some _ _ _ _ H1), H3.
    change (flat_map (node_removed id) (m :: children))
      with (node_removed id m ++ flat_map (node_removed id) children)%list.
    rewrite H2, H4. split; reflexivity. }
  destruct Hkids as [H1 H2].
  change (node_remove id (Node c0 children))
    with (if has_id id c0 then None
          else Some (Node c0 (omap (node_remove id) children))).
  change (node_removed id (Node c0 children))
    with (if has_id id c0 then node_components (Node c0 children)
          else flat_map (node_removed id) children).
  rewrite (Habs c0 (or_introl eq_refl)), H1, H2. split; reflexivity.
Qed.

Lemma tree_remove_absent id t :
  tree_find id t = None -> tree_remove id t = t ∧ tree_removed id t = [].
Proof.
  unfold tree_find, tree_remove, tree_removed, tree_components.
  rewrite find_none_iff. induction t as [|n t IH]; intros Habs.
  - split; reflexivity.
  - destruct (node_remove_absent id n
                (fun c Hc => Habs c (in_or_app _ _ _ (or_introl Hc)))) as [H1 H2].
    destruct (IH (fun c Hc => Habs c (in_or_app _ _ _ (or_intror Hc)))) as [H3 H4].
    rewrite (omap_cons_some _ _ _ _ H1), H3.
    change (flat_map (node_removed id) (n :: t))
      with (node_removed id n ++ flat_map (node_removed id) t)%list.
    rewrite H2, H4. split; reflexivity.
Qed.

Lemma node_removed_found id : forall n c,
  In c (node_components n) -> has_id id c = true -> In c (node_removed id n).
Proof.
  induction n as [c0 children IH] using node_induction.
  intros c Hc Hid. simpl. destruct (has_id id c0) eqn:Hc0; [exact Hc|].
  simpl in Hc. destruct Hc as [<-|Hc]; [congruence|].
  apply in_flat_map in Hc as (m & Hm & Hc). apply in_flat_map.
  exists m. split; [exact Hm|].
  rewrite Forall_forall in IH. apply (IH m); [apply list_elem_of_In|..]; assumption.
Qed.

Lemma tree_removed_found id t c :
  tree_find id t = Some c -> In c (tree_removed id t).
Proof.
  unfold tree_find, tree_removed, tree_components. intros H.
  apply find_some in H as [Hc Hid].
  apply in_flat_map in Hc as (n & Hn & Hc). apply in_flat_map.
  exists n. split; [exact Hn|]. apply node_removed_found; assumption.
Qed.

Lemma tree_find_address_absent tag id t :
  tree_find id t = None -> tree_find_address tag id t = None.
Proof.
  unfold tree_find, tree_find_address. rewrite !find_none_iff.
  intros H c Hc. unfold has_address. unfold has_id in H.
  rewrite (H c Hc). apply andb_false_r.
Qed.

Lemma set_root_component_same t st :
  root_component st = Some t -> set_root_component t st = st.
Proof. destruct st. simpl. intros ->. reflexivity. Qed.


(** ** Group operations and disconnect *)

(** C5: subscribe and unsubscribe are idempotent per connection.  A
    [subscribe] for a room already in the subscription set, and an
    [unsubscribe] for a room not in it, end normally and leave the consumer
    as it was: the set, the channel layer's groups and the trace are the
    same, so no [group_add] and no [group_discard] is issued.  Hence a
    second [subscribe], or a second [unsubscribe], after a first changes
    nothing. *)
Theorem subscribe_unsubscribe_idempotent
    (d : dict) (room : string) (st : consumer) :
  dict_get "room_name" d = Some (PStr room) ->
  (room ∈ subscriptions st -> subscribe (PDict d) st = (Ok tt, st)) ∧
  (room ∉ subscriptions st -> unsubscribe (PDict d) st = (Ok tt, st)) ∧
  (let st1 := snd (subscribe (PDict d) st) in
   subscribe (PDict d) st1 = (Ok tt, st1)) ∧
  (let st1 := snd (unsubscribe (PDict d) st) in
   unsubscribe (PDict d) st1 = (Ok tt, st1)).
Proof.
  intros Hroom.
  assert (Hsub : forall s, room ∈ subscriptions s ->
                           subscribe (PDict d) s = (Ok tt, s)).
  { intros s Hin. unfold subscribe. run_handler. rewrite Hroom.
    destruct (decide (room ∈ subscriptions s)); [reflexivity|contradiction]. }
  assert (Hunsub : forall s, room ∉ subscriptions s ->
                             unsubscribe (PDict d) s = (Ok tt, s)).
  { intros s Hout. unfold unsubscribe. run_handler. rewrite Hroom.
    destruct (decide (room ∈ subscriptions s)); [contradiction|reflexivity]. }
  split; [apply Hsub|]. split; [apply Hunsub|]. split.
  - intros st1. apply Hsub. subst st1. unfold subscribe, group_add.
    run_handler. rewrite Hroom.
    destruct (decide (room ∈ subscriptions st)); simpl; [assumption|set_solver].
  - intros st1. apply Hunsub. subst st1. unfold unsubscribe, group_discard.
    run_handler. rewrite Hroom.
    destruct (decide (room ∈ subscriptions st)); simpl; [set_solver|assumption].
Qed.

(** [subscribe] and [unsubscribe] keep track of the groups, whatever the
    event and however they end. *)
Lemma subscribe_tracked (event : pyval) (st : consumer) :
  tracked st -> tracked (snd (subscribe event st)).
Proof.
  intros Ht. unfold subscribe, group_add. run_handler.
  destruct (subscript event "room_name") as [[| | |room| |]|e]; simpl;
    try exact Ht.
  destruct (decide (room ∈ subscriptions st)); simpl; [exact Ht|].
  intros r. simpl. rewrite members_insert.
  destruct (decide (room = r)) as [->|Hne]; [set_solver|].
  intros Hr. apply Ht in Hr. set_solver.
Qed.

Lemma unsubscribe_tracked (event : pyval) (st : consumer) :
  tracked st -> tracked (snd (unsubscribe event st)).
Proof.
  intros Ht. unfold unsubscribe, group_discard. run_handler.
  destruct (subscript event "room_name") as [[| | |room| |]|e]; simpl;
    try exact Ht.
  destruct (decide (room ∈ subscriptions st)); simpl; [|exact Ht].
  intros r. simpl. rewrite members_insert.
  destruct (decide (room = r)) as [->|Hne]; [set_solver|].
  intros Hr. apply Ht in Hr. set_solver.
Qed.


(** ** Broadcasters *)

(** C3: a render event with an [id] and an [html_diff] puts a message on
    the socket exactly when the diff is true as Python tests it, that is,
    neither [None] nor empty.  For an empty diff the consumer is left as it
    was; otherwise exactly one message is appended to the trace, of type
    [render] and with the event's [id] and [html_diff]. *)
Theorem render_sends_iff_diff_nonempty
    (d : dict) (id html_diff : pyval) (st : consumer) :
  dict_get "id" d = Some id ->
  dict_get "html_diff" d = Some html_diff ->
  (truthy html_diff = false -> render (PDict d) st = (Ok tt, st)) ∧
  (truthy html_diff = true ->
   exists msg st',
     render (PDict d) st = (Ok tt, st') ∧
     trace st' = (trace st ++ [SendJson (PDict msg)])%list ∧
     subscriptions st' = subscriptions st ∧
     root_component st' = root_component st ∧
     channel_layer st' = channel_layer st ∧
     dict_get "type" msg = Some (PStr "render") ∧
     dict_get "id" msg = Some id ∧
     dict_get "html_diff" msg = Some html_diff).
Proof.
  intros Hid Hdiff. split; intros Ht.
  - unfold render. run_handler. rewrite Hdiff, Ht. reflexivity.
  - exists (dict_set "type" (PStr "render") d).
    eexists. split.
    + unfold render, send_json. run_handler. rewrite Hdiff, Ht, Hid. reflexivity.
    + simpl. split_and!; try reflexivity.
      * apply dict_get_set_eq.
      * rewrite dict_get_set_ne by discriminate. exact Hid.
      * rewrite dict_get_set_ne by discriminate. exact Hdiff.
Qed.

(** ** Leaving and removing *)

Lemma for_each_app {A} (body : A -> M unit) (l1 l2 : list A) st :
  for_each body (l1 ++ l2) st = (for_each body l1 ;; for_each body l2) st.
Proof.
  revert st. induction l1 as [|x l1 IH]; intros st; [reflexivity|].
  simpl. unfold mbind, M_bind. destruct (body x st) as [[[]|e] st1].
  - rewrite IH. reflexivity.
  - reflexivity.
Qed.

Lemma for_each_flat_map {A B} (body : B -> M unit) (g : A -> list B) l st :
  for_each (fun x => for_each body (g x)) l st =
  for_each body (flat_map g l) st.
Proof.
  revert st. induction l as [|x l IH]; intros st; [reflexivity|].
  simpl. rewrite for_each_app. unfold mbind, M_bind.
  destruct (for_each body (g x) st) as [[[]|e] st1]; [apply IH|reflexivity].
Qed.

(** What [pop] does on a connected consumer. *)
Lemma pop_connected id t st :
  root_component st = Some t ->
  exists st1,
    pop id st = (Ok tt, st1) ∧
    channel_name st1 = channel_name st ∧
    root_component st1 = Some (tree_remove id t) ∧
    subscriptions st1 =
      subscriptions st ∖
      list_to_set (flat_map c_subscriptions (tree_removed id t)) ∧
    trace st1 =
      (trace st ++
       map (fun room => GroupDiscard room (channel_name st))
           (released (flat_map c_subscriptions (tree_removed id t))
                     (subscriptions st)))%list ∧
    (forall room,
       members (channel_layer st1) room =
       if decide (room ∈ released (flat_map c_subscriptions (tree_removed id t))
                                  (subscriptions st))
       then members (channel_layer st) room ∖ {[channel_name st]}
       else members (channel_layer st) room).
Proof.
  intros Hroot.
  destruct (unsubscribe_each (flat_map c_subscriptions (tree_removed id t))
              (set_root_component (tree_remove id t) st))
    as (st1 & Hrun & Hname & Hr & Hsubs & Htrace & Hlayer).
  exists st1. split; [|split_and!; assumption].
  unfold pop. run_handler. rewrite Hroot. rewrite for_each_flat_map. exact Hrun.
Qed.

(** C7: on a connected consumer, handling a [remove] event is a leave
    followed by one message.  The consumer first does what a [leave] command
    for the event's id does: the id is no longer found in the tree and each
    topic its instance had subscribed to leaves the subscription set, with
    a [group_discard] for every one the connection held; this adds only
    [group_discard] calls to the trace.  Then exactly one message is sent,
    the event with type [remove], which carries the id. *)
Theorem remove_is_leave_then_one_message
    (d : dict) (id : pyval) (t : tree) (st : consumer) :
  dict_get "id" d = Some id ->
  root_component st = Some t ->
  exists st1 rooms,
    receive_leave id st = (Ok tt, st1) ∧
    remove (PDict d) st =
      (Ok tt, emit (SendJson (PDict (dict_set "type" (PStr "remove") d))) st1) ∧
    dict_get "type" (dict_set "type" (PStr "remove") d) = Some (PStr "remove") ∧
    dict_get "id" (dict_set "type" (PStr "remove") d) = Some id ∧
    root_component st1 = Some (tree_remove id t) ∧
    tree_find id (tree_remove id t) = None ∧
    trace st1 =
      (trace st ++ map (fun room => GroupDiscard room (channel_name st)) rooms)%list ∧
    (forall c topic,
       tree_find id t = Some c -> In topic (c_subscriptions c) ->
       (topic ∉ subscriptions st1) ∧
       (topic ∈ subscriptions st ->
        In topic rooms ∧ channel_name st ∉ members (channel_layer st1) topic)).
Proof.
  intros Hid Hroot.
  destruct (pop_connected id t st Hroot)
    as (st1 & Hpop & Hname & Hr & Hsubs & Htrace & Hlayer).
  exists st1, (released (flat_map c_subscriptions (tree_removed id t))
                        (subscriptions st)).
  split_and!.
  - exact Hpop.
  - unfold remove, receive_leave. run_handler. rewrite Hid, Hpop. reflexivity.
  - apply dict_get_set_eq.
  - rewrite dict_get_set_ne by discriminate. exact Hid.
  - exact Hr.
  - apply tree_find_remove.
  - exact Htrace.
  - intros c topic Hfind Htopic.
    assert (Hl : topic ∈ flat_map c_subscriptions (tree_removed id t)).
    { apply list_elem_of_In, in_flat_map. exists c.
      split; [apply tree_removed_found; exact Hfind|exact Htopic]. }
    split.
    + rewrite Hsubs. set_solver.
    + intros Hin. pose proof (released_elem topic _ _ Hl Hin) as Hrel. split.
      * apply list_elem_of_In. exact Hrel.
      * rewrite Hlayer. destruct (decide (topic ∈ released _ _));
          [set_solver|contradiction].
Qed.

Section Dispatch.

  Context `{env : Collaborators}.

(** ** Dispatching *)

Lemma receive_json_dict (d : dict) :
  receive_json (PDict d) =
  match dict_get "command" d with
  | None => raise (KeyError "command")
  | Some name =>
      match dict_get "payload" d with
      | None => raise (KeyError "payload")
      | Some payload =>
          match getattr_receive name with
          | Raise e => raise e
          | Ok method =>
              match payload with
              | PDict kw =>
                  match method with
                  | Receive_join =>
                      call3 receive_join_params receive_join [] kw
                  | Receive_user_event =>
                      call4 receive_user_event_params receive_user_event [] kw
                  | Receive_leave =>
                      call1 receive_leave_params receive_leave [] kw
                  | Receive_json =>
                      match kw with
                      | [(k, request')] =>
                          if String.eqb k "request" then receive_json request'
                          else raise TypeError
                      | _ => raise TypeError
                      end
                  end
              | _ => raise TypeError
              end
          end
      end
  end.
Proof.
  cbn [receive_json]. rewrite dict_get_k_get.
  destruct (dict_get "command" d); [|reflexivity].
  rewrite dict_get_k_get. reflexivity.
Qed.

(** A well-formed command reaches its method with the payload's fields. *)
Lemma receive_json_join d kw tag_name id state :
  dict_get "command" d = Some (PStr "join") ->
  dict_get "payload" d = Some (PDict kw) ->
  bind_args receive_join_params [] kw = Ok [tag_name; id; state] ->
  receive_json (PDict d) = receive_join tag_name id state.
Proof.
  intros Hc Hp Hb. rewrite receive_json_dict, Hc, Hp. simpl getattr_receive.
  cbv iota. unfold call3, lift, mbind, M_bind. rewrite Hb. reflexivity.
Qed.

Lemma receive_json_user_event d kw id name implicit_args explicit_args :
  dict_get "command" d = Some (PStr "user_event") ->
  dict_get "payload" d = Some (PDict kw) ->
  bind_args receive_user_event_params [] kw =
    Ok [id; name; implicit_args; explicit_args] ->
  receive_json (PDict d) = receive_user_event id name implicit_args explicit_args.
Proof.
  intros Hc Hp Hb. rewrite receive_json_dict, Hc, Hp. simpl getattr_receive.
  cbv iota. unfold call4, lift, mbind, M_bind. rewrite Hb. reflexivity.
Qed.

Lemma deliver_receive_raises (request : pyval) (e : exn) (st : consumer) :
  receive_json request st = (Raise e, st) ->
  deliver (Receive request) (Open st) = Ended e st.
Proof. intros H. unfold deliver, handle. rewrite H. reflexivity. Qed.

(** C1, as the code has it: a join whose state envelope [Signer.unsign]
    refuses with [BadSignature] (the specification's [IntegrityError]) ends
    with that exception and leaves the consumer as it was, whatever the
    decoder, the constructors and the renderer would do: the payload is not
    decoded, the tree has no new instance and the trace no new message.
    This holds for the method and for the join command that reaches it
    through [receive_json].  Nothing catches the exception: the delivery of
    the command ends the connection with it. *)
Theorem join_with_bad_signature_is_rejected
    (tag_name id state : pyval) (st : consumer) :
  unsign state = Raise BadSignature ->
  receive_join tag_name id state st = (Raise BadSignature, st) ∧
  (forall d kw,
     dict_get "command" d = Some (PStr "join") ->
     dict_get "payload" d = Some (PDict kw) ->
     bind_args receive_join_params [] kw = Ok [tag_name; id; state] ->
     receive_json (PDict d) st = (Raise BadSignature, st) ∧
     deliver (Receive (PDict d)) (Open st) = Ended BadSignature st).
Proof.
  intros Hsig.
  assert (H : receive_join tag_name id state st = (Raise BadSignature, st)).
  { unfold receive_join. apply bind_raise. unfold lift. rewrite Hsig. reflexivity. }
  split; [exact H|].
  intros d kw Hc Hp Hb.
  assert (Hj : receive_json (PDict d) st = (Raise BadSignature, st)).
  { rewrite (receive_json_join d kw _ _ _ Hc Hp Hb). exact H. }
  split; [exact Hj|]. apply deliver_receive_raises. exact Hj.
Qed.

(** C2, as the code has it: a message whose command names no [receive_]
    method of the consumer, that is, none of [join], [user_event], [leave]
    and [json], ends with an exception, [AttributeError] when the message
    has a payload and [KeyError] when it has none, and leaves the consumer
    as it was: tree, subscriptions, groups and trace are the same.  Nothing
    catches the exception: the delivery of the message ends the connection
    with it. *)
Theorem unknown_command_fails_alone (d : dict) (name : pyval) (st : consumer) :
  dict_get "command" d = Some name ->
  name <> PStr "join" -> name <> PStr "user_event" ->
  name <> PStr "leave" -> name <> PStr "json" ->
  let e := match dict_get "payload" d with
           | Some _ => AttributeError
           | None => KeyError "payload"
           end in
  receive_json (PDict d) st = (Raise e, st) ∧
  deliver (Receive (PDict d)) (Open st) = Ended e st.
Proof.
  intros Hc H1 H2 H3 H4 e.
  assert (Hj : receive_json (PDict d) st = (Raise e, st)).
  { subst e. rewrite receive_json_dict, Hc.
    destruct (dict_get "payload" d); [|reflexivity].
    rewrite (getattr_receive_unknown name H1 H2 H3 H4). reflexivity. }
  split; [exact Hj|]. apply deliver_receive_raises. exact Hj.
Qed.

(** ** User events *)

(** C9: in the arguments of a user event, [explicit_args] given as [None]
    counts as the empty mapping, and the merged keyword arguments, the ones
    [dispatch_user_event] is called with, have for every key of
    [explicit_args] the explicit value, and for every other key what
    [extract_data] gave for [implicit_args]. *)
Theorem explicit_args_override_implicit (implicit_args : pyval) (data : dict) :
  extract_data implicit_args = Ok data ->
  user_event_kwargs implicit_args PNone =
    user_event_kwargs implicit_args (PDict []) ∧
  user_event_kwargs implicit_args PNone = Ok data ∧
  (forall explicit : dict,
     List.NoDup (map fst explicit) ->
     exists kwargs,
       user_event_kwargs implicit_args (PDict explicit) = Ok kwargs ∧
       (forall k v, dict_get k explicit = Some v -> dict_get k kwargs = Some v) ∧
       (forall k, dict_get k explicit = None ->
                  dict_get k kwargs = dict_get k data)) ∧
  (forall id name explicit_args kwargs st,
     user_event_kwargs implicit_args explicit_args = Ok kwargs ->
     receive_user_event id name implicit_args explicit_args st =
     (html_diff ← dispatch_user_event id name kwargs;
      render (PDict [("id", id); ("html_diff", html_diff)])) st).
Proof.
  intros Hdata. split_and!.
  - reflexivity.
  - unfold user_event_kwargs. rewrite Hdata. reflexivity.
  - intros explicit Hnd. exists (dict_update data explicit). split_and!.
    + unfold user_event_kwargs, py_or. rewrite Hdata.
      destruct explicit; reflexivity.
    + intros k v Hk. rewrite (dict_update_get k explicit data Hnd), Hk. reflexivity.
    + intros k Hk. rewrite (dict_update_get k explicit data Hnd), Hk. reflexivity.
  - intros id name explicit_args kwargs st Hk. unfold receive_user_event.
    unfold lift, mbind at 1, M_bind at 1. rewrite Hk. reflexivity.
Qed.

(** C10: an event on the [send_component] channel never reaches a handler.
    Whatever the event, the method ends with an exception and leaves the
    consumer, its tree and its trace as they were; for an event that has a
    [name] and a [state] with an [id] the exception is the [TypeError] of
    calling [receive_user_event], which has four parameters, with three
    arguments. *)
Theorem send_component_raises_type_error (event : pyval) (st : consumer) :
  (exists e, send_component event st = (Raise e, st)) ∧
  (forall state id name,
     subscript event "state" = Ok state ->
     subscript state "id" = Ok id ->
     subscript event "name" = Ok name ->
     send_component event st = (Raise TypeError, st)).
Proof.
  assert (Hwf : forall state id name,
     subscript event "state" = Ok state ->
     subscript state "id" = Ok id ->
     subscript event "name" = Ok name ->
     send_component event st = (Raise TypeError, st)).
  { intros state id name Hs Hi Hn. unfold send_component, call4. run_handler.
    rewrite Hs, Hi, Hn. reflexivity. }
  split; [|exact Hwf]. clear Hwf.
  destruct (subscript event "state") as [state|e] eqn:Hs.
  - destruct (subscript state "id") as [id|e] eqn:Hi.
    + destruct (subscript event "name") as [name|e] eqn:Hn.
      * exists TypeError. unfold send_component, call4. run_handler.
        rewrite Hs, Hi, Hn. reflexivity.
      * exists e. unfold send_component. run_handler. rewrite Hs, Hi, Hn. reflexivity.
    + exists e. unfold send_component. run_handler. rewrite Hs, Hi. reflexivity.
  - exists e. unfold send_component. run_handler. rewrite Hs. reflexivity.
Qed.

(** ** The component layer *)

Lemma dispatch_unknown_component id name kwargs t st :
  root_component st = Some t ->
  tree_find id t = None ->
  dispatch_user_event id name kwargs st = (Raise UnknownComponent, st).
Proof.
  intros Hroot Hfind. unfold dispatch_user_event. run_handler.
  rewrite Hroot, Hfind. reflexivity.
Qed.

Lemma user_event_unknown_component id name implicit_args explicit_args kwargs t st :
  root_component st = Some t ->
  tree_find id t = None ->
  user_event_kwargs implicit_args explicit_args = Ok kwargs ->
  receive_user_event id name implicit_args explicit_args st =
  (Raise UnknownComponent, st).
Proof.
  intros Hroot Hfind Hk. unfold receive_user_event.
  unfold lift, mbind at 1, M_bind at 1. rewrite Hk.
  apply bind_raise. exact (dispatch_unknown_component _ _ _ _ _ Hroot Hfind).
Qed.

(** C6, as the code has it: a user event for an id that has no live
    instance in the tree of a connected consumer ends with an exception and
    leaves the consumer as it was, so that nothing is sent.  The arguments
    are merged before the id is looked up: when they merge, the exception
    is [UnknownComponent]; when they do not, it is the exception of the
    merge.  This holds for the method and for the command that reaches it
    through [receive_json].  Nothing catches the exception: the delivery of
    the command ends the connection with it. *)
Theorem user_event_for_unknown_component_is_rejected
    (id name implicit_args explicit_args : pyval) (t : tree) (st : consumer) :
  root_component st = Some t ->
  tree_find id t = None ->
  let e := match user_event_kwargs implicit_args explicit_args with
           | Ok _ => UnknownComponent
           | Raise e => e
           end in
  receive_user_event id name implicit_args explicit_args st = (Raise e, st) ∧
  forall d kw,
    dict_get "command" d = Some (PStr "user_event") ->
    dict_get "payload" d = Some (PDict kw) ->
    bind_args receive_user_event_params [] kw =
      Ok [id; name; implicit_args; explicit_args] ->
    receive_json (PDict d) st = (Raise e, st) ∧
    deliver (Receive (PDict d)) (Open st) = Ended e st.
Proof.
  intros Hroot Hfind e.
  assert (H : receive_user_event id name implicit_args explicit_args st =
              (Raise e, st)).
  { subst e.
    destruct (user_event_kwargs implicit_args explicit_args) as [kwargs|e]
      eqn:Hk.
    - exact (user_event_unknown_component _ _ _ _ _ _ _ Hroot Hfind Hk).
    - unfold receive_user_event. apply bind_raise.
      unfold lift. rewrite Hk. reflexivity. }
  split; [exact H|].
  intros d kw Hc Hp Hb.
  assert (Hj : receive_json (PDict d) st = (Raise e, st)).
  { rewrite (receive_json_user_event d kw _ _ _ _ Hc Hp Hb). exact H. }
  split; [exact Hj|]. apply deliver_receive_raises. exact Hj.
Qed.

(** ** A constructor that asks for destruction *)

(** C8: [XTodoItem] mounted with an id that matches no row of [Item], and
    without an [item] among its arguments, subscribes to no topic and asks
    for its own destruction.  The join that mounts it on a connected
    consumer whose tree has no instance under the id ends normally; it
    leaves subscriptions, groups and tree as they were and sends one
    message, of type [remove]: no [render] is sent.  Afterwards the id is
    found neither by id nor by address, and a user event for it is rejected
    with [UnknownComponent] and sends nothing. *)
Theorem XTodoItem_without_item_gets_no_slot
    (Item_objects_filter_id_first : pyval -> option Item)
    (id state : pyval) (signed : string) (args : dict) (t : tree)
    (st : consumer) :
  mount_of "XTodoItem" = Some (XTodoItem_mount Item_objects_filter_id_first) ->
  Item_objects_filter_id_first id = None ->
  truthy (kwarg "item" PNone args) = false ->
  unsign state = Ok signed ->
  json_loads signed = Ok (PDict args) ->
  dict_get "id" args = None ->
  root_component st = Some t ->
  tree_find id t = None ->
  (exists c,
     XTodoItem_mount Item_objects_filter_id_first
       (new_component "XTodoItem" id) args = Ok c ∧
     c_subscriptions c = [] ∧ c_destroy_sent c = true) ∧
  (exists st',
     receive_join (PStr "XTodoItem") id state st = (Ok tt, st') ∧
     subscriptions st' = subscriptions st ∧
     channel_layer st' = channel_layer st ∧
     root_component st' = Some t ∧
     trace st' =
       (trace st ++ [SendJson (PDict [("id", id); ("type", PStr "remove")])])%list ∧
     tree_find_address "XTodoItem" id t = None ∧
     (forall name implicit_args explicit_args kwargs,
        user_event_kwargs implicit_args explicit_args = Ok kwargs ->
        receive_user_event id name implicit_args explicit_args st' =
        (Raise UnknownComponent, st'))).
Proof.
  intros Hmount Hitem Hfalsy Hsig Hjson Hnoid Hroot Hfind.
  assert (Hc : XTodoItem_mount Item_objects_filter_id_first
                 (new_component "XTodoItem" id) args =
               Ok (send_destroy
                     (setattr "item" (AVal PNone)
                        (setattr "showing" (AVal (kwarg "showing" (PStr "all") args))
                           (setattr "editing"
                              (AVal (kwarg "editing" (PBool false) args))
                              (new_component "XTodoItem" id)))))).
  { unfold XTodoItem_mount, XTodoItem_mount_with. cbn [attr_truthy].
    rewrite Hfalsy. simpl c_id. rewrite Hitem. reflexivity. }
  split.
  - eexists. split; [exact Hc|]. split; reflexivity.
  - destruct (tree_remove_absent id t Hfind) as [Hrm Hrmd].
    exists (emit (SendJson (PDict [("id", id); ("type", PStr "remove")])) st).
    split_and!; try reflexivity.
    + unfold receive_join, get_or_create, remove, receive_leave, pop,
        _render_diff, render, send_json.
      run_handler. rewrite Hsig, Hjson. simpl. rewrite Hroot. simpl.
      rewrite Hnoid, Hroot. simpl.
      rewrite (tree_find_address_absent "XTodoItem" id t Hfind), Hmount, Hc.
      simpl. rewrite Hroot. simpl. rewrite Hrm, Hrmd. simpl.
      rewrite (set_root_component_same t st Hroot). reflexivity.
    + exact Hroot.
    + apply tree_find_address_absent. exact Hfind.
    + intros name implicit_args explicit_args kwargs Hk.
      apply (user_event_unknown_component _ _ _ _ kwargs t); [exact Hroot| |]; assumption.
Qed.

End Dispatch.

(** ** More on the group operations *)

Lemma released_all (l : list string) : forall s : gset string,
  NoDup l -> (forall room, room ∈ l -> room ∈ s) -> released l s = l.
Proof.
  induction l as [|r l IH]; intros s Hnd Hin; [reflexivity|].
  simpl. destruct (decide (r ∈ s)) as [_|Hn]; [|exfalso; apply Hn, Hin; left].
  apply NoDup_cons in Hnd as [Hr Hnd]. f_equal. apply IH; [exact Hnd|].
  intros room Hroom. apply elem_of_difference. split.
  - apply Hin. right. exact Hroom.
  - intros Heq. apply elem_of_singleton in Heq. subst room. contradiction.
Qed.

(** X1: subscribing to a room the consumer does not hold and unsubscribing
    from it again is a round trip on the subscription set: one [group_add]
    and then one [group_discard] for the own channel are issued, the set is
    the one before, the channel is no member of the room's group, and the
    tree is not touched. *)
Theorem subscribe_then_unsubscribe (d : dict) (room : string) (st : consumer) :
  dict_get "room_name" d = Some (PStr room) ->
  room ∉ subscriptions st ->
  exists st1 st2,
    subscribe (PDict d) st = (Ok tt, st1) ∧
    subscriptions st1 = {[room]} ∪ subscriptions st ∧
    channel_name st ∈ members (channel_layer st1) room ∧
    unsubscribe (PDict d) st1 = (Ok tt, st2) ∧
    subscriptions st2 = subscriptions st ∧
    trace st2 =
      (trace st ++ [GroupAdd room (channel_name st);
                    GroupDiscard room (channel_name st)])%list ∧
    (channel_name st ∉ members (channel_layer st2) room) ∧
    (forall other, other <> room ->
       members (channel_layer st2) other = members (channel_layer st) other) ∧
    root_component st2 = root_component st.
Proof.
  intros Hroom Hout. eexists. eexists. split.
  { unfold subscribe, group_add. run_handler. rewrite Hroom.
    destruct (decide (room ∈ subscriptions st)); [contradiction|reflexivity]. }
  split; [reflexivity|]. split.
  { simpl. rewrite members_insert.
    destruct (decide (room = room)); [set_solver|congruence]. }
  split.
  { unfold unsubscribe, group_discard. run_handler. rewrite Hroom.
    destruct (decide (room ∈ _)) as [_|Hn];
      [reflexivity|exfalso; apply Hn; simpl; set_solver]. }
  simpl. split_and!.
  - set_solver.
  - rewrite <- app_assoc. reflexivity.
  - rewrite !members_insert. destruct (decide (room = room)); [|congruence].
    set_solver.
  - intros other Hne. rewrite !members_insert.
    destruct (decide (room = other)); [congruence|reflexivity].
  - reflexivity.
Qed.

(** X2: a group event that [subscribe] or [unsubscribe] cannot handle
    changes nothing: whenever one of them raises, the consumer is as it
    was.  An event without [room_name] raises [KeyError]; a room name that
    is a list or a dictionary cannot be hashed and raises [TypeError]. *)
Theorem group_event_failure_changes_nothing (event : pyval) (st : consumer) :
  (forall e st', subscribe event st = (Raise e, st') -> st' = st) ∧
  (forall e st', unsubscribe event st = (Raise e, st') -> st' = st) ∧
  (forall d, event = PDict d -> dict_get "room_name" d = None ->
     subscribe event st = (Raise (KeyError "room_name"), st) ∧
     unsubscribe event st = (Raise (KeyError "room_name"), st)) ∧
  (forall d room_name, event = PDict d ->
     dict_get "room_name" d = Some room_name ->
     (exists l, room_name = PList l) ∨ (exists m, room_name = PDict m) ->
     subscribe event st = (Raise TypeError, st) ∧
     unsubscribe event st = (Raise TypeError, st)).
Proof.
  split_and!.
  - intros e st'. unfold subscribe, group_add. run_handler.
    destruct (subscript event "room_name") as [[| | |room| |]|e0];
      try (intros Heq; injection Heq as _ <-; reflexivity).
    destruct (decide (room ∈ subscriptions st)); discriminate.
  - intros e st'. unfold unsubscribe, group_discard. run_handler.
    destruct (subscript event "room_name") as [[| | |room| |]|e0];
      try (intros Heq; injection Heq as _ <-; reflexivity);
      try discriminate.
    destruct (decide (room ∈ subscriptions st)); discriminate.
  - intros d -> Hnone. unfold subscribe, unsubscribe. run_handler.
    rewrite Hnone. split; reflexivity.
  - intros d room_name -> Hsome [[l ->]|[m ->]];
      unfold subscribe, unsubscribe; run_handler; rewrite Hsome;
      split; reflexivity.
Qed.

(** X3: on disconnect exactly one [group_discard] is issued for each room
    of the subscription set and nothing else happens: the trace grows by
    these calls only, so that no message is sent, and the tree and the
    channel name are the ones before. *)
Theorem disconnect_discards_each_room_once
    (close_code : pyval) (st : consumer) :
  exists st',
    disconnect close_code st = (Ok tt, st') ∧
    trace st' =
      (trace st ++
       map (fun room => GroupDiscard room (channel_name st))
           (elements (subscriptions st)))%list ∧
    NoDup (elements (subscriptions st)) ∧
    root_component st' = root_component st ∧
    channel_name st' = channel_name st.
Proof.
  destruct (unsubscribe_each (elements (subscriptions st)) st)
    as (st' & Hrun & Hname & Hroot & _ & Htrace & _).
  exists st'. split_and!.
  - unfold disconnect. run_handler. exact Hrun.
  - rewrite Htrace, released_all; [reflexivity|apply NoDup_elements|].
    intros room. apply elem_of_elements.
  - apply NoDup_elements.
  - exact Hroot.
  - exact Hname.
Qed.

(** X4: disconnect is idempotent: a second disconnect, with any close code,
    finds nothing to release and leaves the consumer as the first left it. *)
Theorem disconnect_twice (code1 code2 : pyval) (st : consumer) :
  let st' := snd (disconnect code1 st) in
  disconnect code2 st' = (Ok tt, st').
Proof.
  destruct (unsubscribe_each (elements (subscriptions st)) st)
    as (st' & Hrun & _ & _ & Hsubs & _).
  assert (Hd : disconnect code1 st = (Ok tt, st')).
  { unfold disconnect. run_handler. exact Hrun. }
  simpl. rewrite Hd. simpl. unfold disconnect. run_handler.
  rewrite Hsubs, list_to_set_elements_L, difference_diag_L, elements_empty.
  reflexivity.
Qed.

(** ** More on the broadcasters *)

Lemma dict_set_keys k v (d : dict) :
  map fst (dict_set k v d) =
  if existsb (String.eqb k) (map fst d) then map fst d
  else (map fst d ++ [k])%list.
Proof.
  induction d as [|[j w] d IH]; simpl; [reflexivity|].
  rewrite (String.eqb_sym k j).
  destruct (String.eqb j k); simpl; [reflexivity|].
  rewrite IH. destruct (existsb (String.eqb k) (map fst d)); reflexivity.
Qed.

(** X5: [render] reads [html_diff] always and [id] only when it sends.  An
    event without [html_diff] raises [KeyError]; an event with a true diff
    and without [id] raises [KeyError] and sends nothing; an event with an
    empty diff and without [id] is dropped without an error.  Whenever
    [render] raises, the consumer is as it was. *)
Theorem render_missing_fields (d : dict) (st : consumer) :
  (dict_get "html_diff" d = None ->
   render (PDict d) st = (Raise (KeyError "html_diff"), st)) ∧
  (forall html_diff,
     dict_get "html_diff" d = Some html_diff -> dict_get "id" d = None ->
     render (PDict d) st =
     if truthy html_diff then (Raise (KeyError "id"), st) else (Ok tt, st)) ∧
  (forall event e st', render event st = (Raise e, st') -> st' = st).
Proof.
  split_and!.
  - intros Hnone. unfold render. run_handler. rewrite Hnone. reflexivity.
  - intros html_diff Hdiff Hid. unfold render. run_handler.
    rewrite Hdiff. destruct (truthy html_diff); [|reflexivity].
    rewrite Hid. reflexivity.
  - intros event e st'. unfold render, send_json. run_handler.
    destruct (subscript event "html_diff") as [html_diff|e0];
      [|intros Heq; injection Heq as _ <-; reflexivity].
    destruct (truthy html_diff); [|discriminate].
    destruct (subscript event "id") as [id|e0];
      [|intros Heq; injection Heq as _ <-; reflexivity].
    destruct event; try (intros Heq; injection Heq as _ <-; reflexivity).
    discriminate.
Qed.

(** X6: the message [render] sends is the event with its type set to
    [render]: an event that came with another [type] has it replaced in
    place, every other field goes out with the value it came with, and no
    field is added but [type]. *)
Theorem render_message_keeps_fields
    (d : dict) (id html_diff : pyval) (st : consumer) :
  dict_get "id" d = Some id ->
  dict_get "html_diff" d = Some html_diff ->
  truthy html_diff = true ->
  exists msg,
    render (PDict d) st = (Ok tt, emit (SendJson (PDict msg)) st) ∧
    dict_get "type" msg = Some (PStr "render") ∧
    (forall k, k <> "type" -> dict_get k msg = dict_get k d) ∧
    map fst msg =
      if existsb (String.eqb "type") (map fst d) then map fst d
      else (map fst d ++ ["type"])%list.
Proof.
  intros Hid Hdiff Ht. exists (dict_set "type" (PStr "render") d). split_and!.
  - unfold render, send_json. run_handler. rewrite Hdiff, Ht, Hid. reflexivity.
  - apply dict_get_set_eq.
  - intros k Hk. apply dict_get_set_ne. congruence.
  - apply dict_set_keys.
Qed.

(** X7: [visit] passes its event through unchanged, as the only message it
    sends, when the event has an [action] and a [url]; an event that lacks
    one of them raises [KeyError], [action] first, and nothing is sent. *)
Theorem visit_passes_event_through (d : dict) (st : consumer) :
  (forall action url,
     dict_get "action" d = Some action -> dict_get "url" d = Some url ->
     visit (PDict d) st = (Ok tt, emit (SendJson (PDict d)) st)) ∧
  (dict_get "action" d = None ->
   visit (PDict d) st = (Raise (KeyError "action"), st)) ∧
  (forall action,
     dict_get "action" d = Some action -> dict_get "url" d = None ->
     visit (PDict d) st = (Raise (KeyError "url"), st)).
Proof.
  split_and!.
  - intros action url Ha Hu. unfold visit, send_json. run_handler.
    rewrite Ha, Hu. reflexivity.
  - intros Ha. unfold visit. run_handler. rewrite Ha. reflexivity.
  - intros action Ha Hu. unfold visit. run_handler. rewrite Ha, Hu. reflexivity.
Qed.

(** X8: a [remove] event that cannot be carried out sends nothing.  Without
    an [id] it raises [KeyError] before anything is left; on a consumer that
    has no tree yet it raises [AttributeError]; in both cases the consumer
    is as it was. *)
Theorem remove_failure_sends_nothing (d : dict) (st : consumer) :
  (dict_get "id" d = None ->
   remove (PDict d) st = (Raise (KeyError "id"), st)) ∧
  (forall id,
     dict_get "id" d = Some id -> root_component st = None ->
     remove (PDict d) st = (Raise AttributeError, st)).
Proof.
  split.
  - intros Hid. unfold remove. run_handler. rewrite Hid. reflexivity.
  - intros id Hid Hroot. unfold remove, receive_leave, pop. run_handler.
    rewrite Hid, Hroot. reflexivity.
Qed.

(** ** More on dispatching *)

Lemma dict_get_filter_ne p q (kw : dict) :
  p <> q ->
  dict_get p (filter (fun kv => negb (String.eqb (fst kv) q)) kw) = dict_get p kw.
Proof.
  intros Hne. induction kw as [|[k v] kw IH]; [reflexivity|].
  rewrite filter_cons. simpl.
  destruct (String.eqb_spec k q) as [->|Hkq]; simpl.
  - destruct (String.eqb_spec q p); [congruence|exact IH].
  - destruct (String.eqb k p); [reflexivity|exact IH].
Qed.

Lemma dict_get_in k (kw : dict) :
  In k (map fst kw) -> exists v, dict_get k kw = Some v.
Proof.
  induction kw as [|[j w] kw IH]; simpl; [intros []|].
  intros [->|Hin].
  - exists w. rewrite String.eqb_refl. reflexivity.
  - destruct (String.eqb j k); [exists w; reflexivity|exact (IH Hin)].
Qed.

Lemma in_keys_filter k q (kw : dict) :
  k <> q -> In k (map fst kw) ->
  In k (map fst (filter (fun kv => negb (String.eqb (fst kv) q)) kw)).
Proof.
  intros Hne Hin. apply in_map_iff in Hin as ([j v] & <- & Hin).
  apply in_map_iff. exists (j, v). split; [reflexivity|].
  apply list_elem_of_In, list_elem_of_filter. split.
  - simpl in *. destruct (String.eqb_spec j q); [congruence|exact I].
  - apply list_elem_of_In. exact Hin.
Qed.

Lemma bind_keywords_missing p : forall rest kw,
  In p rest -> dict_get p kw = None -> bind_keywords rest kw = Raise TypeError.
Proof.
  induction rest as [|q rest IH]; intros kw Hin Hnone; [destruct Hin|].
  simpl. destruct (dict_get q kw) as [v|] eqn:Hq; [|reflexivity].
  destruct Hin as [->|Hin]; [congruence|].
  assert (Hne : p <> q) by congruence.
  rewrite (IH _ Hin); [reflexivity|].
  rewrite dict_get_filter_ne by exact Hne. exact Hnone.
Qed.

Lemma bind_keywords_unexpected k : forall rest kw,
  In k (map fst kw) -> ~ In k rest -> bind_keywords rest kw = Raise TypeError.
Proof.
  induction rest as [|q rest IH]; intros kw Hin Hout.
  - destruct kw; [destruct Hin|reflexivity].
  - simpl. destruct (dict_get q kw) as [v|]; [|reflexivity].
    rewrite IH; [reflexivity| |].
    + apply in_keys_filter; [|exact Hin]. intros ->. apply Hout. left. reflexivity.
    + intros H. apply Hout. right. exact H.
Qed.

Lemma dict_get_perm k (kw kw' : dict) :
  List.NoDup (map fst kw) -> Permutation kw kw' ->
  dict_get k kw = dict_get k kw'.
Proof.
  intros Hnd Hperm. induction Hperm as [|[j v] l l' Hp IH|[j v] [i w] l|l l' l'' H1 IH1 H2 IH2].
  - reflexivity.
  - simpl. inversion Hnd; subst. rewrite IH by assumption. reflexivity.
  - simpl. destruct (String.eqb_spec i k) as [->|Hi];
      destruct (String.eqb_spec j k) as [->|Hj]; try reflexivity.
    exfalso. inversion Hnd as [|? ? Hnotin _]; subst. apply Hnotin. left. reflexivity.
  - rewrite IH1 by exact Hnd. apply IH2.
    apply (Permutation_NoDup (Permutation_map fst H1)). exact Hnd.
Qed.

Lemma filter_keys_nodup q (kw : dict) :
  List.NoDup (map fst kw) ->
  List.NoDup (map fst (filter (fun kv => negb (String.eqb (fst kv) q)) kw)).
Proof.
  induction kw as [|[k v] kw IH]; intros Hnd; [constructor|].
  inversion Hnd as [|? ? Hk Hrest]; subst. rewrite filter_cons. simpl.
  destruct (negb (String.eqb k q)); [|exact (IH Hrest)].
  simpl. constructor; [|exact (IH Hrest)].
  intros Hin. apply Hk. apply in_map_iff in Hin as (x & Hx & Hin).
  apply in_map_iff. exists x. split; [exact Hx|].
  apply list_elem_of_In, list_elem_of_filter in Hin as [_ Hin].
  apply list_elem_of_In. exact Hin.
Qed.

Lemma bind_keywords_perm : forall rest (kw kw' : dict),
  List.NoDup (map fst kw) -> Permutation kw kw' ->
  bind_keywords rest kw = bind_keywords rest kw'.
Proof.
  induction rest as [|p rest IH]; intros kw kw' Hnd Hperm.
  - simpl. destruct kw as [|x kw]; destruct kw' as [|y kw']; try reflexivity.
    + apply Permutation_nil in Hperm. discriminate.
    + symmetry in Hperm. apply Permutation_nil in Hperm. discriminate.
  - simpl. rewrite <- (dict_get_perm p kw kw' Hnd Hperm).
    destruct (dict_get p kw); [|reflexivity].
    rewrite (IH _ (filter (fun kv => negb (String.eqb (fst kv) p)) kw')).
    + reflexivity.
    + apply filter_keys_nodup. exact Hnd.
    + apply filter_Permutation. exact Hperm.
Qed.

Section MoreDispatch.

Context `{env : Collaborators}.

Lemma bind_args_keywords (params : list string) (kw : dict) :
  bind_args params [] kw =
  match bind_keywords params kw with
  | Ok bound => Ok (map snd bound)
  | Raise e => Raise e
  end.
Proof. unfold bind_args. destruct params; reflexivity. Qed.

Lemma call_bind_failure (params : list string) (kw : dict) st :
  bind_keywords params kw = Raise TypeError ->
  (forall f, call1 params f [] kw st = (Raise TypeError, st)) ∧
  (forall f, call3 params f [] kw st = (Raise TypeError, st)) ∧
  (forall f, call4 params f [] kw st = (Raise TypeError, st)).
Proof.
  intros Hb. split_and!; intros f; unfold call1, call3, call4;
    apply bind_raise; unfold lift; rewrite bind_args_keywords, Hb; reflexivity.
Qed.

Lemma receive_json_command (name : string) (kw : dict) :
  receive_json (PDict (command name kw)) =
  match getattr_receive (PStr name) with
  | Raise e => raise e
  | Ok Receive_join => call3 receive_join_params receive_join [] kw
  | Ok Receive_user_event =>
      call4 receive_user_event_params receive_user_event [] kw
  | Ok Receive_leave => call1 receive_leave_params receive_leave [] kw
  | Ok Receive_json =>
      match kw with
      | [(k, request')] =>
          if String.eqb k "request" then receive_json request'
          else raise TypeError
      | _ => raise TypeError
      end
  end.
Proof.
  rewrite receive_json_dict. unfold command.
  change (dict_get "command" _) with (Some (PStr name)).
  change (dict_get "payload" _) with (Some (PDict kw)).
  cbv iota. destruct (getattr_receive (PStr name)) as [[| | |]|e]; reflexivity.
Qed.

(** X10: a request that has not the shape [{command, payload}] is refused
    before any method runs and changes nothing.  A request that is no
    mapping raises [TypeError]; one without [command] raises [KeyError]; one
    without [payload] raises [KeyError] whatever its command; one whose
    command is known and whose payload is no mapping raises [TypeError]. *)
Theorem malformed_request_changes_nothing (request : pyval) (st : consumer) :
  ((forall d, request <> PDict d) ->
   receive_json request st = (Raise TypeError, st)) ∧
  (forall d, request = PDict d -> dict_get "command" d = None ->
   receive_json request st = (Raise (KeyError "command"), st)) ∧
  (forall d name, request = PDict d ->
   dict_get "command" d = Some name -> dict_get "payload" d = None ->
   receive_json request st = (Raise (KeyError "payload"), st)) ∧
  (forall d name method payload, request = PDict d ->
   dict_get "command" d = Some name -> getattr_receive name = Ok method ->
   dict_get "payload" d = Some payload -> (forall kw, payload <> PDict kw) ->
   receive_json request st = (Raise TypeError, st)).
Proof.
  split_and!.
  - intros Hnd. destruct request; try reflexivity. exfalso. exact (Hnd _ eq_refl).
  - intros d -> Hc. rewrite receive_json_dict, Hc. reflexivity.
  - intros d name -> Hc Hp. rewrite receive_json_dict, Hc, Hp. reflexivity.
  - intros d name method payload -> Hc Hm Hp Hnk.
    rewrite receive_json_dict, Hc, Hp, Hm.
    destruct payload; try reflexivity. exfalso. exact (Hnk _ eq_refl).
Qed.

(** X11: a command whose payload has not exactly the fields of its method
    is refused with [TypeError] before the method runs: a field that is
    missing and a field that is not a parameter both fail the call, and the
    consumer is as it was. *)
Theorem payload_fields_must_match
    (d kw : dict) (name : string) (params : list string) (st : consumer) :
  dict_get "command" d = Some (PStr name) ->
  dict_get "payload" d = Some (PDict kw) ->
  command_params name = Some params ->
  (exists p, In p params ∧ dict_get p kw = None) ∨
  (exists k, In k (map fst kw) ∧ ~ In k params) ->
  receive_json (PDict d) st = (Raise TypeError, st).
Proof.
  intros Hc Hp Hparams Hbad.
  assert (Hb : bind_keywords params kw = Raise TypeError).
  { destruct Hbad as [(p & Hin & Hnone)|(k & Hin & Hout)].
    - exact (bind_keywords_missing p params kw Hin Hnone).
    - exact (bind_keywords_unexpected k params kw Hin Hout). }
  destruct (call_bind_failure params kw st Hb) as (H1 & H3 & H4).
  rewrite receive_json_dict, Hc, Hp.
  unfold command_params in Hparams. unfold getattr_receive.
  destruct (String.eqb name "join"); [injection Hparams as <-; apply H3|].
  destruct (String.eqb name "user_event"); [injection Hparams as <-; apply H4|].
  destruct (String.eqb name "leave"); [injection Hparams as <-; apply H1|].
  discriminate.
Qed.

(** X12: the order of the fields of a payload does not matter: two commands
    of the same name whose payloads have the same fields in another order
    do the same, on every consumer. *)
Theorem payload_field_order_is_irrelevant
    (name : string) (kw kw' : dict) (st : consumer) :
  List.NoDup (map fst kw) ->
  Permutation kw kw' ->
  receive_json (PDict (command name kw)) st =
  receive_json (PDict (command name kw')) st.
Proof.
  intros Hnd Hperm. rewrite !receive_json_command.
  destruct (getattr_receive (PStr name)) as [[| | |]|e]; [| | | |reflexivity];
    unfold call1, call3, call4, mbind, M_bind, lift;
    rewrite ?bind_args_keywords,
      ?(bind_keywords_perm receive_join_params kw kw' Hnd Hperm),
      ?(bind_keywords_perm receive_user_event_params kw kw' Hnd Hperm),
      ?(bind_keywords_perm receive_leave_params kw kw' Hnd Hperm);
    try reflexivity.
  destruct kw as [|x [|y kw]].
  - apply Permutation_nil in Hperm. subst kw'. reflexivity.
  - apply Permutation_length_1_inv in Hperm. subst kw'. reflexivity.
  - pose proof (Permutation_length Hperm) as Hlen.
    destruct kw' as [|x' [|y' kw']]; try discriminate Hlen.
    destruct x as [k r], x' as [k' r']. reflexivity.
Qed.

(** X13: a join whose envelope has a valid signature is still refused,
    with the tree and everything else as before, when its payload cannot be
    decoded (the decoder's exception), when the consumer has no tree yet
    ([AttributeError]), when the decoded state is no mapping and when it
    gives [id] a second time (both [TypeError]). *)
Theorem join_with_bad_state_is_rejected
    (tag_name id state : pyval) (signed : string) (st : consumer) :
  unsign state = Ok signed ->
  (forall e, json_loads signed = Raise e ->
     receive_join tag_name id state st = (Raise e, st)) ∧
  (forall decoded, json_loads signed = Ok decoded ->
     root_component st = None ->
     receive_join tag_name id state st = (Raise AttributeError, st)) ∧
  (forall decoded t, json_loads signed = Ok decoded ->
     root_component st = Some t -> (forall args, decoded <> PDict args) ->
     receive_join tag_name id state st = (Raise TypeError, st)) ∧
  (forall args t again, json_loads signed = Ok (PDict args) ->
     root_component st = Some t -> dict_get "id" args = Some again ->
     receive_join tag_name id state st = (Raise TypeError, st)).
Proof.
  intros Hsig. split_and!.
  - intros e Hj. unfold receive_join. run_handler. rewrite Hsig, Hj. reflexivity.
  - intros decoded Hj Hroot. unfold receive_join. run_handler.
    rewrite Hsig, Hj, Hroot. reflexivity.
  - intros decoded t Hj Hroot Hnd. unfold receive_join. run_handler.
    rewrite Hsig, Hj, Hroot. destruct decoded; try reflexivity.
    exfalso. exact (Hnd _ eq_refl).
  - intros args t again Hj Hroot Hid. unfold receive_join. run_handler.
    rewrite Hsig, Hj, Hroot. simpl. rewrite Hid. reflexivity.
Qed.

(** X14: in a user event, every false value of [explicit_args] ([None],
    [false], [0], an empty string, list or mapping) counts as the empty
    mapping.  A true value that is no mapping raises [TypeError], and an
    [implicit_args] that [extract_data] refuses raises its exception first;
    in both cases no handler is dispatched and the consumer is as it was. *)
Theorem user_event_arguments (implicit_args explicit_args : pyval) :
  (truthy explicit_args = false ->
   user_event_kwargs implicit_args explicit_args =
   user_event_kwargs implicit_args (PDict [])) ∧
  (forall data, extract_data implicit_args = Ok data ->
     truthy explicit_args = true -> (forall m, explicit_args <> PDict m) ->
     forall id name st,
       receive_user_event id name implicit_args explicit_args st =
       (Raise TypeError, st)) ∧
  (forall e, extract_data implicit_args = Raise e ->
     forall id name st,
       receive_user_event id name implicit_args explicit_args st =
       (Raise e, st)).
Proof.
  split_and!.
  - intros Hf. unfold user_event_kwargs, py_or. rewrite Hf. reflexivity.
  - intros data Hd Ht Hnm id name st. unfold receive_user_event.
    apply bind_raise. unfold lift, user_event_kwargs, py_or. rewrite Ht, Hd.
    destruct explicit_args; try reflexivity. exfalso. exact (Hnm _ eq_refl).
  - intros e He id name st. unfold receive_user_event.
    apply bind_raise. unfold lift, user_event_kwargs. rewrite He. reflexivity.
Qed.

End MoreDispatch.

(** ** The life of a consumer *)

Lemma preserves_ret {A} P (a : A) : preserves P (mret a).
Proof. intros st H. exact H. Qed.

Lemma preserves_raise {A} P e : preserves P (raise (A := A) e).
Proof. intros st H. exact H. Qed.

Lemma preserves_lift {A} P (r : result A) : preserves P (lift r).
Proof. intros st H. exact H. Qed.

Lemma preserves_get P : preserves P get.
Proof. intros st H. exact H. Qed.

Lemma preserves_root P : preserves P the_root_component.
Proof. intros st H. unfold the_root_component. destruct (root_component st); exact H. Qed.

Lemma preserves_bind {A B} P (m : M A) (f : A -> M B) :
  preserves P m -> (forall a, preserves P (f a)) -> preserves P (m ≫= f).
Proof.
  intros Hm Hf st H. unfold mbind, M_bind. specialize (Hm st H).
  destruct (m st) as [[a|e] st1]; simpl in *; [apply Hf|]; exact Hm.
Qed.

Lemma preserves_modify P (f : consumer -> consumer) :
  (forall st, P st -> P (f st)) -> preserves P (modify f).
Proof. intros Hf st H. apply Hf. exact H. Qed.

Lemma preserves_for_each {A} P (body : A -> M unit) (l : list A) :
  (forall x, preserves P (body x)) -> preserves P (for_each body l).
Proof.
  intros Hbody. induction l as [|x l IH]; [apply preserves_ret|].
  simpl. apply preserves_bind; [apply Hbody|intros _; exact IH].
Qed.

Create HintDb preserves.
#[global] Hint Resolve preserves_for_each : preserves.

Ltac preserve :=
  repeat first
    [ solve [auto 4 with preserves]
    | apply preserves_ret | apply preserves_raise | apply preserves_lift
    | apply preserves_get | apply preserves_root
    | apply preserves_bind; [|intros ?]
    | match goal with
      | |- preserves _ (match ?x with _ => _ end) => destruct x
      end ].

Lemma preserves_subscribe P event : framed P -> preserves P (subscribe event).
Proof. intros (_ & _ & _ & Hsub & _). apply Hsub. Qed.
#[global] Hint Resolve preserves_subscribe : preserves.

Lemma preserves_unsubscribe P event :
  framed P -> preserves P (unsubscribe event).
Proof. intros (_ & _ & _ & _ & Hunsub). apply Hunsub. Qed.
#[global] Hint Resolve preserves_unsubscribe : preserves.

Lemma preserves_set_root P t :
  framed P -> preserves P (modify (set_root_component t)).
Proof. intros (_ & _ & Hroot & _). apply preserves_modify, Hroot. Qed.
#[global] Hint Resolve preserves_set_root : preserves.

Lemma preserves_accept P : framed P -> preserves P (modify (emit Accept)).
Proof. intros (Hacc & _). apply preserves_modify, Hacc. Qed.
#[global] Hint Resolve preserves_accept : preserves.

Lemma preserves_send_json P content : framed P -> preserves P (send_json content).
Proof. intros (_ & Hsend & _). apply preserves_modify. apply Hsend. Qed.
#[global] Hint Resolve preserves_send_json : preserves.

Lemma preserves_render P event : framed P -> preserves P (render event).
Proof. intros HP. unfold render. preserve. Qed.
#[global] Hint Resolve preserves_render : preserves.

Lemma preserves_visit P event : framed P -> preserves P (visit event).
Proof. intros HP. unfold visit. preserve. Qed.
#[global] Hint Resolve preserves_visit : preserves.

Lemma preserves_disconnect P close_code :
  framed P -> preserves P (disconnect close_code).
Proof. intros HP. unfold disconnect. preserve. Qed.
#[global] Hint Resolve preserves_disconnect : preserves.

Lemma preserves_pop P id : framed P -> preserves P (pop id).
Proof. intros HP. unfold pop. preserve. Qed.
#[global] Hint Resolve preserves_pop : preserves.

Lemma preserves_remove P event : framed P -> preserves P (remove event).
Proof. intros HP. unfold remove, receive_leave. preserve. Qed.
#[global] Hint Resolve preserves_remove : preserves.

Lemma joined_app tr e : joined (tr ++ [e]) = joined_step (joined tr) e.
Proof. unfold joined. rewrite fold_left_app. reflexivity. Qed.

Lemma balanced_framed : framed balanced.
Proof.
  unfold framed, balanced. split_and!.
  - intros st [Hs Ho]. simpl. rewrite joined_app. split; [exact Hs|].
    apply Forall_app. split; [exact Ho|repeat constructor].
  - intros content st [Hs Ho]. simpl. rewrite joined_app. split; [exact Hs|].
    apply Forall_app. split; [exact Ho|repeat constructor].
  - intros t st H. exact H.
  - intros event st [Hs Ho]. unfold subscribe, group_add. run_handler.
    destruct (subscript event "room_name") as [[| | |room| |]|e]; simpl;
      try (split; assumption).
    destruct (decide (room ∈ subscriptions st)); simpl; [split; assumption|].
    rewrite joined_app. simpl. rewrite Hs. split; [reflexivity|].
    apply Forall_app. split; [exact Ho|repeat constructor].
  - intros event st [Hs Ho]. unfold unsubscribe, group_discard. run_handler.
    destruct (subscript event "room_name") as [[| | |room| |]|e]; simpl;
      try (split; assumption).
    destruct (decide (room ∈ subscriptions st)); simpl; [|split; assumption].
    rewrite joined_app. simpl. rewrite Hs. split; [reflexivity|].
    apply Forall_app. split; [exact Ho|repeat constructor].
Qed.

Lemma tracked_framed : framed tracked.
Proof.
  unfold framed. split_and!; try (intros; assumption).
  - intros event st. apply subscribe_tracked.
  - intros event st. apply unsubscribe_tracked.
Qed.

Lemma channel_name_framed channel :
  framed (fun st => channel_name st = channel).
Proof.
  unfold framed. split_and!; try (intros; assumption).
  - intros event st H. unfold subscribe, group_add. run_handler.
    destruct (subscript event "room_name") as [[| | |room| |]|e]; simpl;
      try exact H.
    destruct (decide (room ∈ subscriptions st)); exact H.
  - intros event st H. unfold unsubscribe, group_discard. run_handler.
    destruct (subscript event "room_name") as [[| | |room| |]|e]; simpl;
      try exact H.
    destruct (decide (room ∈ subscriptions st)); exact H.
Qed.

Section Life.

Context `{env : Collaborators}.

Lemma preserves_connect P : framed P -> preserves P connect.
Proof. intros HP. unfold connect. preserve. Qed.

Lemma preserves_render_diff P c : framed P -> preserves P (_render_diff c).
Proof. intros HP. unfold _render_diff. preserve. Qed.
#[local] Hint Resolve preserves_render_diff : preserves.

Lemma preserves_get_or_create P tag_name id args :
  framed P -> preserves P (get_or_create tag_name id args).
Proof. intros HP. unfold get_or_create. preserve. Qed.
#[local] Hint Resolve preserves_get_or_create : preserves.

Lemma preserves_dispatch_user_event P id name kwargs :
  framed P -> preserves P (dispatch_user_event id name kwargs).
Proof. intros HP. unfold dispatch_user_event. preserve. Qed.
#[local] Hint Resolve preserves_dispatch_user_event : preserves.

Lemma preserves_receive_join P tag_name id state :
  framed P -> preserves P (receive_join tag_name id state).
Proof. intros HP. unfold receive_join. preserve. Qed.
#[local] Hint Resolve preserves_receive_join : preserves.

Lemma preserves_receive_user_event P id name implicit_args explicit_args :
  framed P ->
  preserves P (receive_user_event id name implicit_args explicit_args).
Proof. intros HP. unfold receive_user_event. preserve. Qed.
#[local] Hint Resolve preserves_receive_user_event : preserves.

Lemma preserves_receive_json P : framed P ->
  forall request, preserves P (receive_json request).
Proof.
  intros HP.
  assert (Hboth : forall request,
            preserves P (receive_json request) ∧
            (forall k r, request = PDict [(k, r)] ->
                         preserves P (receive_json r))).
  { induction request as [| | | | |d IH] using pyval_induction;
      try (split; [apply preserves_raise|discriminate]).
    split.
    - rewrite receive_json_dict.
      destruct (dict_get "command" d) as [name|]; [|apply preserves_raise].
      destruct (dict_get "payload" d) as [payload|] eqn:Hp;
        [|apply preserves_raise].
      destruct (getattr_receive name) as [method|e]; [|apply preserves_raise].
      destruct payload as [| | | | |kw]; try apply preserves_raise.
      destruct method.
      + unfold call3. preserve.
      + unfold call4. preserve.
      + unfold call1, receive_leave. preserve.
      + destruct kw as [|[k r] [|? ?]]; try apply preserves_raise.
        destruct (String.eqb k "request"); [|apply preserves_raise].
        assert (Hin : In ("payload", PDict [(k, r)]) d).
        { clear -Hp. induction d as [|[j v] d IHd]; [discriminate|].
          simpl in Hp. destruct (String.eqb_spec j "payload") as [->|_].
          - injection Hp as ->. left. reflexivity.
          - right. apply IHd. exact Hp. }
        rewrite List.Forall_forall in IH.
        apply (proj2 (IH _ Hin) k r). reflexivity.
    - intros k r Heq. injection Heq as ->.
      inversion IH as [|? ? Hr _]; subst. apply Hr. }
  intros request. apply Hboth.
Qed.

Lemma preserves_handle P x : framed P -> preserves P (handle x).
Proof.
  intros HP. destruct x; simpl.
  - apply preserves_connect. exact HP.
  - apply preserves_disconnect. exact HP.
  - apply preserves_receive_json. exact HP.
  - apply preserves_subscribe. exact HP.
  - apply preserves_unsubscribe. exact HP.
  - unfold send_component, call4. preserve.
  - apply preserves_render. exact HP.
  - apply preserves_remove. exact HP.
  - apply preserves_visit. exact HP.
Qed.

Lemma preserves_after P history st :
  framed P -> P st -> P (after history st).
Proof.
  intros HP. revert st. induction history as [|x history IH]; intros st H;
    [exact H|].
  simpl. apply IH. apply preserves_handle; assumption.
Qed.

Lemma life_is_balanced_aux
    (history : list delivery) (channel : string)
    (layer : gmap string (gset string)) :
  let st := after history (new_consumer channel layer) in
  subscriptions st = joined (trace st) ∧
  Forall (own_call channel) (trace st) ∧
  channel_name st = channel.
Proof.
  intros st.
  assert (Hname : channel_name st = channel).
  { apply (preserves_after (fun st => channel_name st = channel));
      [apply channel_name_framed|reflexivity]. }
  assert (Hbal : balanced st).
  { apply (preserves_after balanced); [apply balanced_framed|].
    split; [reflexivity|constructor]. }
  destruct Hbal as [Hs Ho]. rewrite Hname in Ho. split_and!; assumption.
Qed.

(** X15: at every moment of its life a consumer holds exactly the rooms
    it has added and not discarded since, and it never calls the channel
    layer for another channel than its own.  After any history of
    deliveries to a new consumer, whatever the constructors and handlers of
    the components do and however each delivery ended, the subscription set
    is what the trace has joined, every [group_add] and [group_discard] of
    the trace names the consumer's channel, and the channel name is the one
    given at the start. *)
Theorem life_is_balanced
    (history : list delivery) (channel : string)
    (layer : gmap string (gset string)) :
  let st := after history (new_consumer channel layer) in
  subscriptions st = joined (trace st) ∧
  Forall (own_call channel) (trace st) ∧
  channel_name st = channel.
Proof. exact (life_is_balanced_aux history channel layer). Qed.

(** X16: a life that ends with a disconnect leaks no membership: after any
    history of deliveries followed by a disconnect, the subscription set is
    empty and every room the consumer ever added has been discarded since.
    When the channel was a member of no group at the start, it is a member
    of no group at the end. *)
Theorem disconnect_ends_every_membership
    (history : list delivery) (close_code : pyval) (channel : string)
    (layer : gmap string (gset string)) :
  let st := after (history ++ [Disconnect close_code])
              (new_consumer channel layer) in
  subscriptions st = ∅ ∧
  joined (trace st) = ∅ ∧
  ((forall room, channel ∉ members layer room) ->
   forall room, channel ∉ members (channel_layer st) room).
Proof.
  intros st.
  destruct (life_is_balanced_aux (history ++ [Disconnect close_code]) channel layer)
    as (Hbal & _).
  fold st in Hbal.
  set (st0 := after history (new_consumer channel layer)).
  assert (Hst : st = snd (disconnect close_code st0)).
  { unfold st, st0, after. rewrite fold_left_app. reflexivity. }
  destruct (unsubscribe_each (elements (subscriptions st0)) st0)
    as (st' & Hrun & Hname & _ & Hsubs & _ & Hlayer).
  assert (Hd : disconnect close_code st0 = (Ok tt, st')).
  { unfold disconnect. run_handler. exact Hrun. }
  rewrite Hd in Hst. simpl in Hst. subst st'.
  assert (Hempty : subscriptions st = ∅).
  { rewrite Hsubs, list_to_set_elements_L. apply difference_diag_L. }
  split; [exact Hempty|]. split; [rewrite <- Hbal; exact Hempty|].
  intros Hfresh.
  assert (Htr : tracked st0).
  { apply (preserves_after tracked); [apply tracked_framed|].
    intros room Hin. exfalso. exact (Hfresh room Hin). }
  assert (Hn0 : channel_name st0 = channel).
  { apply (preserves_after (fun st => channel_name st = channel));
      [apply channel_name_framed|reflexivity]. }
  intros room. rewrite Hlayer. rewrite Hn0 in *.
  destruct (decide (room ∈ released _ _)) as [_|Hnot]; [set_solver|].
  intros Hmem. apply Hnot. apply released_elem.
  - apply elem_of_elements. apply Htr. rewrite Hn0. exact Hmem.
  - apply Htr. rewrite Hn0. exact Hmem.
Qed.

End Life.

(** ** The todo components *)

Lemma attrs_get_filter_ne name other (attrs : list (string * attr)) :
  name <> other ->
  attrs_get other
    (filter (fun kv => negb (String.eqb (fst kv) name)) attrs) =
  attrs_get other attrs.
Proof.
  intros Hne. induction attrs as [|[k a] attrs IH]; [reflexivity|].
  rewrite filter_cons. simpl.
  destruct (String.eqb_spec k name) as [->|Hk]; simpl.
  - destruct (String.eqb_spec name other); [congruence|exact IH].
  - destruct (String.eqb k other); [reflexivity|exact IH].
Qed.

Lemma getattr_setattr_eq name a c : getattr name (setattr name a c) = Ok a.
Proof. unfold getattr, setattr. simpl. rewrite String.eqb_refl. reflexivity. Qed.

Lemma getattr_setattr_ne name other a c :
  name <> other -> getattr other (setattr name a c) = getattr other c.
Proof.
  intros Hne. unfold getattr, setattr. simpl.
  destruct (String.eqb_spec name other); [congruence|].
  rewrite attrs_get_filter_ne by exact Hne. reflexivity.
Qed.

(** X17: every constructor of the todo application that succeeds leaves a
    new component with exactly one subscription and no request for
    destruction, or else with a request for destruction and no
    subscription: never with both, never with neither.  The list always
    subscribes to [item.new] and the counter to [item].  An item subscribes
    to the topic of the row it holds, which is the row passed as [item] or,
    for a false [item], the row the store has under the id; with a false
    [item] and no such row it asks for its destruction.  A true [item] that
    is no row raises [AttributeError]. *)
Theorem mount_subscribes_or_destroys
    (Item_objects_all : list Item)
    (Item_objects_filter_id_first : pyval -> option Item)
    (id : pyval) :
  (forall kwargs, exists c,
     XTodoList_mount (new_component "XTodoList" id) kwargs = Ok c ∧
     c_destroy_sent c = false ∧ c_subscriptions c = ["item.new"]) ∧
  (forall kwargs, exists c,
     XTodoCounter_mount Item_objects_all (new_component "XTodoCounter" id)
       kwargs = Ok c ∧
     c_destroy_sent c = false ∧ c_subscriptions c = ["item"]) ∧
  (forall item editing showing c,
     XTodoItem_mount_with Item_objects_filter_id_first
       (new_component "XTodoItem" id) item editing showing = Ok c ->
     (c_destroy_sent c = false ∧
      exists it,
        getattr "item" c = Ok (AItem it) ∧
        c_subscriptions c = ["item." ++ pretty (item_id it)] ∧
        (item = AItem it ∨
         (attr_truthy item = false ∧
          Item_objects_filter_id_first id = Some it))) ∨
     (c_destroy_sent c = true ∧ c_subscriptions c = [] ∧
      attr_truthy item = false ∧ Item_objects_filter_id_first id = None)) ∧
  (forall item editing showing,
     attr_truthy item = true -> (forall it, item <> AItem it) ->
     XTodoItem_mount_with Item_objects_filter_id_first
       (new_component "XTodoItem" id) item editing showing
     = Raise AttributeError).
Proof.
  split_and!.
  - intros kwargs. eexists. split; [reflexivity|]. split; reflexivity.
  - intros kwargs. eexists. split; [reflexivity|]. split; reflexivity.
  - intros item editing showing c. unfold XTodoItem_mount_with.
    destruct (attr_truthy item) eqn:Ht.
    + destruct item as [v|it|its]; try discriminate.
      intros Hc. injection Hc as <-. left. split; [reflexivity|].
      exists it. split_and!; [reflexivity|reflexivity|left; reflexivity].
    + simpl c_id.
      destruct (Item_objects_filter_id_first id) as [it|] eqn:Hit;
        intros Hc; injection Hc as <-.
      * left. split; [reflexivity|]. exists it.
        split_and!; [reflexivity|reflexivity|right; split; reflexivity].
      * right. split_and!; reflexivity.
  - intros item editing showing Ht Hrow. unfold XTodoItem_mount_with.
    rewrite Ht. destruct item as [v|it|its]; try reflexivity.
    exfalso. exact (Hrow it eq_refl).
Qed.

(** X18: the state of a mounted list survives a round trip: [serialize]
    succeeds on what [mount] built, and mounting a new component of the
    same id from the serialized fields builds the same component again.
    For an item this holds when it was mounted from its id, with a false
    [item], or with the very row the store has under its id; an item
    mounted with another row than the store has under its id is not built
    again, since the row is not serialized and the new mount asks the store.
    Before [mount] the fields do not exist and [serialize] raises
    [AttributeError]. *)
Theorem serialize_mount_round_trip
    (Item_objects_filter_id_first : pyval -> option Item)
    (id : pyval) :
  (forall kwargs c,
     XTodoList_mount (new_component "XTodoList" id) kwargs = Ok c ->
     exists s,
       XTodoList_serialize c = Ok s ∧
       XTodoList_mount (new_component "XTodoList" id) (state_of s) = Ok c) ∧
  (forall item editing showing c,
     XTodoItem_mount_with Item_objects_filter_id_first
       (new_component "XTodoItem" id) item editing showing = Ok c ->
     exists s,
       XTodoItem_serialize c = Ok s ∧
       (attr_truthy item = false ∨
        (exists it, item = AItem it ∧
                    Item_objects_filter_id_first id = Some it) ->
        XTodoItem_mount Item_objects_filter_id_first
          (new_component "XTodoItem" id) (state_of s) = Ok c) ∧
       (forall it, item = AItem it ->
        Item_objects_filter_id_first id <> Some it ->
        XTodoItem_mount Item_objects_filter_id_first
          (new_component "XTodoItem" id) (state_of s) <> Ok c)) ∧
  XTodoList_serialize (new_component "XTodoList" id) = Raise AttributeError ∧
  XTodoItem_serialize (new_component "XTodoItem" id) = Raise AttributeError.
Proof.
  split_and!; try reflexivity.
  - intros kwargs c Hc. injection Hc as <-. eexists. split; reflexivity.
  - intros item editing showing c. unfold XTodoItem_mount_with.
    destruct (attr_truthy item) eqn:Ht.
    + destruct item as [v|it|its]; try discriminate.
      intros Hc. injection Hc as <-. eexists. split; [reflexivity|]. split.
      * intros [Hf|(it' & Heq & Hit)]; [discriminate|].
        injection Heq as <-.
        unfold XTodoItem_mount, XTodoItem_mount_with. simpl. rewrite Hit.
        reflexivity.
      * intros it' Heq Hne. injection Heq as <-.
        unfold XTodoItem_mount, XTodoItem_mount_with. simpl.
        destruct (Item_objects_filter_id_first id) as [it'|] eqn:Hit;
          intros Hsame; injection Hsame as Hrow; try discriminate.
        apply Hne. rewrite Hrow. reflexivity.
    + simpl c_id.
      destruct (Item_objects_filter_id_first id) as [it|] eqn:Hit;
        intros Hc; injection Hc as <-;
        (eexists; split; [reflexivity|]); split.
      * intros _. unfold XTodoItem_mount, XTodoItem_mount_with. simpl.
        rewrite Hit. reflexivity.
      * intros it' Heq. subst item. discriminate Ht.
      * intros _. unfold XTodoItem_mount, XTodoItem_mount_with. simpl.
        rewrite Hit. reflexivity.
      * intros it' Heq. subst item. discriminate Ht.
Qed.

(** X19: an item with a row is always visible under the filter [all],
    under [completed] exactly when it is completed and under [active]
    exactly when it is not, hence under exactly one of the two, and under
    no other filter.  An item without a row is visible under [all] and
    raises [AttributeError] under [completed] and [active]. *)
Theorem is_visible_by_filter (self : component) :
  let visible filter :=
    XTodoItem_is_visible (setattr "showing" (AVal (PStr filter)) self) in
  (forall it, getattr "item" self = Ok (AItem it) ->
     visible "all" = Ok true ∧
     visible "completed" = Ok (item_completed it) ∧
     visible "active" = Ok (negb (item_completed it)) ∧
     (forall filter, filter <> "all" -> filter <> "completed" ->
        filter <> "active" -> visible filter = Ok false)) ∧
  (getattr "item" self = Ok (AVal PNone) ->
     visible "all" = Ok true ∧
     visible "completed" = Raise AttributeError ∧
     visible "active" = Raise AttributeError).
Proof.
  intros visible.
  assert (Hitem : forall f,
            item_completed_of (setattr "showing" (AVal (PStr f)) self) =
            item_completed_of self).
  { intros f. unfold item_completed_of.
    rewrite getattr_setattr_ne by discriminate. reflexivity. }
  assert (Hvis : forall f, visible f =
            if String.eqb f "all" then Ok true
            else if String.eqb f "completed" then item_completed_of self
            else if String.eqb f "active" then
              match item_completed_of self with
              | Ok completed => Ok (negb completed)
              | Raise e => Raise e
              end
            else Ok false).
  { intros f. unfold visible, XTodoItem_is_visible.
    rewrite getattr_setattr_eq, Hitem. reflexivity. }
  split.
  - intros it Hit.
    assert (Hc : item_completed_of self = Ok (item_completed it)).
    { unfold item_completed_of. rewrite Hit. reflexivity. }
    split_and!; try (rewrite Hvis, ?Hc; reflexivity).
    intros f H1 H2 H3. rewrite Hvis.
    destruct (String.eqb_spec f "all"); [contradiction|].
    destruct (String.eqb_spec f "completed"); [contradiction|].
    destruct (String.eqb_spec f "active"); [contradiction|reflexivity].
  - intros Hnone.
    assert (Hc : item_completed_of self = Raise AttributeError).
    { unfold item_completed_of. rewrite Hnone. reflexivity. }
    split_and!; rewrite Hvis, ?Hc; reflexivity.
Qed.

(** X20: toggling the editing of an item that is not completed negates the
    truth of [editing], so that toggling twice gives [editing] as a Boolean
    back and leaves every other field, the subscriptions and the id as
    they were; on a completed item the toggle changes nothing. *)
Theorem toggle_editing_twice
    (self : component) (it : Item) (editing : attr) (kwargs kwargs' : dict) :
  getattr "item" self = Ok (AItem it) ->
  getattr "editing" self = Ok editing ->
  (item_completed it = true ->
   XTodoItem_receive_toggle_editing self kwargs = Ok self) ∧
  (item_completed it = false ->
   exists once twice,
     XTodoItem_receive_toggle_editing self kwargs = Ok once ∧
     getattr "editing" once = Ok (AVal (PBool (negb (attr_truthy editing)))) ∧
     XTodoItem_receive_toggle_editing once kwargs' = Ok twice ∧
     getattr "editing" twice = Ok (AVal (PBool (attr_truthy editing))) ∧
     (forall name, name <> "editing" -> getattr name twice = getattr name self) ∧
     c_subscriptions twice = c_subscriptions self ∧
     c_id twice = c_id self).
Proof.
  intros Hitem Hed.
  assert (Hc : item_completed_of self = Ok (item_completed it)).
  { unfold item_completed_of. rewrite Hitem. reflexivity. }
  split; intros Hdone.
  - unfold XTodoItem_receive_toggle_editing. rewrite Hc, Hdone. reflexivity.
  - set (once := setattr "editing"
                   (AVal (PBool (negb (attr_truthy editing)))) self).
    assert (Hc1 : item_completed_of once = Ok (item_completed it)).
    { unfold item_completed_of, once.
      rewrite getattr_setattr_ne by discriminate. rewrite Hitem. reflexivity. }
    exists once,
      (setattr "editing" (AVal (PBool (negb (negb (attr_truthy editing))))) once).
    split_and!.
    + unfold XTodoItem_receive_toggle_editing. rewrite Hc, Hdone, Hed. reflexivity.
    + apply getattr_setattr_eq.
    + unfold XTodoItem_receive_toggle_editing. rewrite Hc1, Hdone.
      cbn [negb]. unfold once at 1. rewrite getattr_setattr_eq. reflexivity.
    + rewrite getattr_setattr_eq, negb_involutive. reflexivity.
    + intros name Hname. unfold once.
      rewrite !getattr_setattr_ne by congruence. reflexivity.
    + reflexivity.
    + reflexivity.
Qed.

(** X21: [receive_show] changes the filter of a list and nothing else:
    after it, [serialize] gives the new [showing] with the [new_item] and
    the id of before.  Without a [showing] argument the handler raises
    [TypeError]. *)
Theorem receive_show_sets_the_filter
    (self : component) (kwargs : dict) (new_item : attr) :
  getattr "new_item" self = Ok new_item ->
  (forall showing, dict_get "showing" kwargs = Some showing ->
     exists shown,
       XTodoList_receive_show self kwargs = Ok shown ∧
       XTodoList_serialize shown =
         Ok [("id", AVal (c_id self)); ("new_item", new_item);
             ("showing", AVal showing)] ∧
       c_subscriptions shown = c_subscriptions self) ∧
  (dict_get "showing" kwargs = None ->
   XTodoList_receive_show self kwargs = Raise TypeError).
Proof.
  intros Hnew. split.
  - intros showing Hs. eexists. split_and!.
    + unfold XTodoList_receive_show. rewrite Hs. reflexivity.
    + unfold XTodoList_serialize.
      rewrite getattr_setattr_ne by discriminate.
      rewrite Hnew, getattr_setattr_eq. reflexivity.
    + reflexivity.
  - intros Hs. unfold XTodoList_receive_show. rewrite Hs. reflexivity.
Qed.

(** ** Before and after connect *)

Section Connect.

Context `{env : Collaborators}.

(** X22: [connect] accepts the socket, starts an empty tree and then sends
    one message, the handshake with the registered component types; it
    leaves the subscriptions and the groups alone.  Before it, the consumer
    has no tree: a leave and a user event whose arguments merge raise
    [AttributeError] and change nothing. *)
Theorem connect_starts_the_session (st : consumer) :
  (exists st',
     connect st = (Ok tt, st') ∧
     root_component st' = Some [] ∧
     subscriptions st' = subscriptions st ∧
     channel_layer st' = channel_layer st ∧
     trace st' =
       (trace st ++
        [Accept;
         SendJson (PDict [("type", PStr "components");
                          ("component_types", PDict component_types)])])%list) ∧
  (root_component st = None ->
   forall id,
     receive_leave id st = (Raise AttributeError, st) ∧
     forall name implicit_args explicit_args kwargs,
       user_event_kwargs implicit_args explicit_args = Ok kwargs ->
       receive_user_event id name implicit_args explicit_args st =
       (Raise AttributeError, st)).
Proof.
  split.
  - eexists. split; [reflexivity|]. simpl. split_and!; try reflexivity.
    rewrite <- app_assoc. reflexivity.
  - intros Hroot id. split.
    + unfold receive_leave, pop. run_handler. rewrite Hroot. reflexivity.
    + intros name implicit_args explicit_args kwargs Hk.
      unfold receive_user_event, dispatch_user_event. run_handler.
      rewrite Hk, Hroot. reflexivity.
Qed.

End Connect.

(** ** The samples at work *)

(** Joining a counter: it is created, subscribed to [item] and rendered. *)
Example scenario_A :
  let out :=
    receive_json (env := example_env)
      (PDict (command "join"
                [("tag_name", PStr "XTodoCounter"); ("id", PInt 2);
                 ("state", PStr "ok:{}")]))
      example_connected in
  fst out = Ok tt ∧
  subscriptions (snd out) = {[ "item" ]} ∧
  root_component (snd out) = Some [Node example_counter []] ∧
  trace (snd out) =
    [GroupAdd "item" example_channel;
     SendJson (PDict [("id", PInt 2); ("html_diff", PStr "<XTodoCounter>");
                      ("type", PStr "render")])].
Proof. vm_compute. repeat split. Qed.

(** Joining it a second time gives the instance that is there: nothing is
    subscribed again and, the output being the same, nothing is sent. *)
Example join_twice :
  receive_json (env := example_env)
    (PDict (command "join"
              [("tag_name", PStr "XTodoCounter"); ("id", PInt 2);
               ("state", PStr "ok:{}")]))
    example_session
  = (Ok tt, example_session).
Proof. vm_compute. reflexivity. Qed.

(** A user event with explicit arguments on a list component. *)
Example show_active :
  let st :=
    snd (receive_join (env := example_env) (PStr "XTodoList") (PInt 3)
           (PStr "ok:{}") example_connected) in
  let out :=
    receive_json (env := example_env)
      (PDict (command "user_event"
                [("id", PInt 3); ("name", PStr "show");
                 ("implicit_args", PDict [("showing", PStr "all")]);
                 ("explicit_args", PDict [("showing", PStr "active")])]))
      st in
  fst out = Ok tt ∧
  (c_attrs <$> (root_component (snd out) ≫= tree_find (PInt 3))) =
    Some [("showing", AVal (PStr "active"));
          ("new_item", AVal (PStr EmptyString))].
Proof. vm_compute. repeat split. Qed.

(** A payload that lacks a field fails the call before the method runs. *)
Example leave_without_id :
  receive_json (env := example_env) (PDict (command "leave" []))
    example_session
  = (Raise TypeError, example_session).
Proof. vm_compute. reflexivity. Qed.

(** ** The properties on the samples *)

Lemma join_with_bad_signature_witness :
  unsign (Collaborators := example_env) (PStr "{}:forged") = Raise BadSignature ∧
  receive_json (env := example_env)
    (PDict (command "join"
              [("tag_name", PStr "XTodoList"); ("id", PInt 3);
               ("state", PStr "{}:forged")]))
    example_session
  = (Raise BadSignature, example_session).
Proof.
  split; [reflexivity|].
  apply (proj2 (join_with_bad_signature_is_rejected (env := example_env)
                  (PStr "XTodoList") (PInt 3) (PStr "{}:forged")
                  example_session eq_refl)
           (command "join" [("tag_name", PStr "XTodoList"); ("id", PInt 3);
                            ("state", PStr "{}:forged")])
           [("tag_name", PStr "XTodoList"); ("id", PInt 3);
            ("state", PStr "{}:forged")]);
    reflexivity.
Defined.

(** C1 as stated fails on the connection: the join with a forged envelope
    is rejected and changes nothing, but its exception is caught nowhere
    and the connection, open before the command, is ended by it. *)
Lemma bad_signature_ends_the_connection :
  let request :=
    PDict (command "join"
             [("tag_name", PStr "XTodoList"); ("id", PInt 3);
              ("state", PStr "{}:forged")]) in
  unsign (Collaborators := example_env) (PStr "{}:forged") = Raise BadSignature ∧
  deliver (env := example_env) (Receive request) (Open example_session)
    = Ended BadSignature example_session ∧
  deliver (env := example_env) (Receive request) (Open example_session)
    <> Open example_session.
Proof.
  vm_compute. split; [reflexivity|]. split; [reflexivity|].
  intros H. discriminate H.
Qed.

(** C2 as stated fails on the command [json]: it is none of [join],
    [user_event] and [leave], yet a message with it is carried out.  It runs
    the request in its payload, here a leave that takes the item out of the
    tree and discards a group.  It fails on the session as well: a message
    with the unknown command [destroy] changes nothing, but its exception is
    caught nowhere and ends the connection. *)
Lemma json_command_is_carried_out :
  let request :=
    PDict (command "json"
             [("request", PDict (command "leave" [("id", PInt 1)]))]) in
  let out := receive_json (env := example_env) request example_session in
  ~ In "json" ["join"; "user_event"; "leave"] ∧
  fst out = Ok tt ∧
  root_component (snd out) = Some [Node example_counter []] ∧
  root_component (snd out) <> root_component example_session ∧
  trace (snd out) = [GroupDiscard "item.1" example_channel] ∧
  ~ In "destroy" ["join"; "user_event"; "leave"] ∧
  deliver (env := example_env)
    (Receive (PDict (command "destroy" [("id", PInt 1)])))
    (Open example_session)
  = Ended AttributeError example_session.
Proof.
  vm_compute. split_and!; try reflexivity.
  - intros [H|[H|[H|[]]]]; discriminate H.
  - intros H. discriminate H.
  - intros [H|[H|[H|[]]]]; discriminate H.
Qed.

Lemma unknown_command_witness :
  receive_json (env := example_env)
    (PDict (command "destroy" [("id", PInt 1)])) example_session
  = (Raise AttributeError, example_session) ∧
  deliver (env := example_env)
    (Receive (PDict (command "destroy" [("id", PInt 1)])))
    (Open example_session)
  = Ended AttributeError example_session.
Proof.
  apply (unknown_command_fails_alone (env := example_env)
           (command "destroy" [("id", PInt 1)]) (PStr "destroy")
           example_session eq_refl);
    discriminate.
Defined.

Lemma render_witness :
  truthy (PStr "<li>milk</li>") = true ∧
  truthy PNone = false ∧
  render (PDict [("id", PInt 1); ("html_diff", PNone)]) example_session
    = (Ok tt, example_session) ∧
  exists msg st',
    render (PDict [("id", PInt 1); ("html_diff", PStr "<li>milk</li>")])
           example_session = (Ok tt, st') ∧
    trace st' = [SendJson (PDict msg)] ∧
    dict_get "type" msg = Some (PStr "render").
Proof.
  split; [reflexivity|]. split; [reflexivity|]. split.
  - exact (proj1 (render_sends_iff_diff_nonempty
                    [("id", PInt 1); ("html_diff", PNone)] (PInt 1) PNone
                    example_session eq_refl eq_refl) eq_refl).
  - destruct (proj2 (render_sends_iff_diff_nonempty
                       [("id", PInt 1); ("html_diff", PStr "<li>milk</li>")]
                       (PInt 1) (PStr "<li>milk</li>")
                       example_session eq_refl eq_refl) eq_refl)
      as (msg & st' & Hrun & Htrace & _ & _ & _ & Htype & _).
    exists msg, st'. split; [exact Hrun|]. split; [exact Htrace|exact Htype].
Defined.


Lemma subscribe_twice_witness :
  subscribe (room_event "item") example_session = (Ok tt, example_session) ∧
  unsubscribe (room_event "item.new") example_session = (Ok tt, example_session).
Proof.
  destruct (subscribe_unsubscribe_idempotent [("room_name", PStr "item")]
              "item" example_session eq_refl) as (Hsub & _).
  destruct (subscribe_unsubscribe_idempotent [("room_name", PStr "item.new")]
              "item.new" example_session eq_refl) as (_ & Hunsub & _).
  split.
  - apply Hsub. unfold example_session. simpl. set_solver.
  - apply Hunsub. unfold example_session. simpl.
    intros Hin. apply elem_of_union in Hin as [Hin|Hin];
      apply elem_of_singleton in Hin; discriminate Hin.
Defined.

Lemma user_event_for_unknown_component_witness :
  tree_find (PInt 99) [Node example_item []; Node example_counter []] = None ∧
  receive_json (env := example_env)
    (PDict (command "user_event"
              [("id", PInt 99); ("name", PStr "show");
               ("implicit_args", PDict []); ("explicit_args", PNone)]))
    example_session
  = (Raise UnknownComponent, example_session).
Proof.
  split; [reflexivity|].
  apply (proj2 (user_event_for_unknown_component_is_rejected
                  (env := example_env) (PInt 99) (PStr "show")
                  (PDict []) PNone
                  [Node example_item []; Node example_counter []]
                  example_session eq_refl eq_refl)
           (command "user_event"
              [("id", PInt 99); ("name", PStr "show");
               ("implicit_args", PDict []); ("explicit_args", PNone)])
           [("id", PInt 99); ("name", PStr "show");
            ("implicit_args", PDict []); ("explicit_args", PNone)]);
    reflexivity.
Defined.

(** C6 as stated fails twice.  A user event for the unknown id 99 whose
    [explicit_args] is a list fails with the [TypeError] of merging the
    arguments, which comes before the lookup, not with [UnknownComponent].
    And the user event with arguments that merge is rejected with
    [UnknownComponent], but the exception is caught nowhere and the
    connection, open before the command, is ended by it. *)
Lemma user_event_for_unknown_component_counterexample :
  let with_list :=
    PDict (command "user_event"
             [("id", PInt 99); ("name", PStr "show");
              ("implicit_args", PDict []);
              ("explicit_args", PList [PStr "x"])]) in
  let well_formed :=
    PDict (command "user_event"
             [("id", PInt 99); ("name", PStr "show");
              ("implicit_args", PDict []); ("explicit_args", PNone)]) in
  tree_find (PInt 99) [Node example_item []; Node example_counter []] = None ∧
  receive_json (env := example_env) with_list example_session
    = (Raise TypeError, example_session) ∧
  fst (receive_json (env := example_env) with_list example_session)
    <> Raise UnknownComponent ∧
  deliver (env := example_env) (Receive well_formed) (Open example_session)
    = Ended UnknownComponent example_session ∧
  deliver (env := example_env) (Receive well_formed) (Open example_session)
    <> Open example_session.
Proof.
  vm_compute. split_and!; try reflexivity; intros H; discriminate H.
Qed.

Lemma remove_witness :
  exists st1,
    receive_leave (PInt 1) example_session = (Ok tt, st1) ∧
    remove (PDict [("type", PStr "remove"); ("id", PInt 1)]) example_session
      = (Ok tt,
         emit (SendJson (PDict [("type", PStr "remove"); ("id", PInt 1)])) st1) ∧
    ("item.1" ∉ subscriptions st1) ∧
    (example_channel ∉ members (channel_layer st1) "item.1").
Proof.
  destruct (remove_is_leave_then_one_message
              [("type", PStr "remove"); ("id", PInt 1)] (PInt 1)
              [Node example_item []; Node example_counter []]
              example_session eq_refl eq_refl)
    as (st1 & rooms & Hleave & Hremove & _ & _ & _ & _ & _ & Htopics).
  exists st1. split; [exact Hleave|]. split; [exact Hremove|].
  destruct (Htopics example_item "item.1" eq_refl (or_introl eq_refl))
    as [Hout Hin].
  split; [exact Hout|]. apply Hin. unfold example_session. simpl. set_solver.
Defined.

Lemma XTodoItem_without_item_witness :
  example_first (PInt 7) = None ∧
  exists st',
    receive_join (env := example_env) (PStr "XTodoItem") (PInt 7) (PStr "ok:{}")
      example_session = (Ok tt, st') ∧
    subscriptions st' = subscriptions example_session ∧
    root_component st' = root_component example_session ∧
    trace st' = [SendJson (PDict [("id", PInt 7); ("type", PStr "remove")])].
Proof.
  split; [reflexivity|].
  destruct (XTodoItem_without_item_gets_no_slot (env := example_env)
              example_first (PInt 7) (PStr "ok:{}") "{}" []
              [Node example_item []; Node example_counter []] example_session
              eq_refl eq_refl eq_refl eq_refl eq_refl eq_refl eq_refl eq_refl)
    as (_ & st' & Hrun & Hsubs & _ & Hroot & Htrace & _).
  exists st'. split; [exact Hrun|]. split; [exact Hsubs|].
  split; [exact Hroot|exact Htrace].
Defined.

Lemma explicit_args_override_witness :
  exists kwargs,
    user_event_kwargs (env := example_env)
      (PDict [("showing", PStr "all"); ("new_item", PStr "milk")])
      (PDict [("showing", PStr "active")]) = Ok kwargs ∧
    dict_get "showing" kwargs = Some (PStr "active") ∧
    dict_get "new_item" kwargs = Some (PStr "milk").
Proof.
  destruct (explicit_args_override_implicit (env := example_env)
              (PDict [("showing", PStr "all"); ("new_item", PStr "milk")])
              [("showing", PStr "all"); ("new_item", PStr "milk")] eq_refl)
    as (_ & _ & Hmerge & _).
  destruct (Hmerge [("showing", PStr "active")]) as (kwargs & Hk & Hexp & Himp).
  - constructor; [intros []|constructor].
  - exists kwargs. split; [exact Hk|]. split.
    + apply Hexp. reflexivity.
    + rewrite Himp; reflexivity.
Defined.

Lemma send_component_witness :
  send_component (env := example_env)
    (PDict [("type", PStr "send_component"); ("name", PStr "show");
            ("state", PDict [("id", PInt 1); ("showing", PStr "all")])])
    example_session
  = (Raise TypeError, example_session).
Proof.
  apply (proj2 (send_component_raises_type_error (env := example_env) _ _)
           (PDict [("id", PInt 1); ("showing", PStr "all")]) (PInt 1)
           (PStr "show"));
    reflexivity.
Defined.

(** ** The further properties on the samples *)

Lemma subscribe_then_unsubscribe_witness :
  ("item.new" ∉ subscriptions example_session) ∧
  exists st1 st2,
    subscribe (room_event "item.new") example_session = (Ok tt, st1) ∧
    unsubscribe (room_event "item.new") st1 = (Ok tt, st2) ∧
    subscriptions st2 = subscriptions example_session ∧
    trace st2 = [GroupAdd "item.new" example_channel;
                 GroupDiscard "item.new" example_channel].
Proof.
  assert (Hout : "item.new" ∉ subscriptions example_session).
  { unfold example_session. simpl. intros Hin.
    apply elem_of_union in Hin as [Hin|Hin];
      apply elem_of_singleton in Hin; discriminate Hin. }
  split; [exact Hout|].
  destruct (subscribe_then_unsubscribe [("room_name", PStr "item.new")]
              "item.new" example_session eq_refl Hout)
    as (st1 & st2 & Hsub & _ & _ & Hunsub & Hsubs & Htrace & _).
  exists st1, st2. split_and!; assumption.
Defined.

Lemma group_event_failure_witness :
  subscribe (PDict [("room", PStr "item")]) example_session
    = (Raise (KeyError "room_name"), example_session) ∧
  unsubscribe (PDict [("room_name", PList [PStr "item"])]) example_session
    = (Raise TypeError, example_session).
Proof.
  destruct (group_event_failure_changes_nothing
              (PDict [("room", PStr "item")]) example_session)
    as (_ & _ & Hkey & _).
  destruct (group_event_failure_changes_nothing
              (PDict [("room_name", PList [PStr "item"])]) example_session)
    as (_ & _ & _ & Htype).
  split.
  - exact (proj1 (Hkey _ eq_refl eq_refl)).
  - refine (proj2 (Htype _ _ eq_refl eq_refl _)). left. eexists. reflexivity.
Defined.

Lemma render_missing_fields_witness :
  render (PDict [("id", PInt 1)]) example_session
    = (Raise (KeyError "html_diff"), example_session) ∧
  render (PDict [("html_diff", PStr "<li>")]) example_session
    = (Raise (KeyError "id"), example_session) ∧
  render (PDict [("html_diff", PNone)]) example_session
    = (Ok tt, example_session).
Proof.
  split_and!.
  - exact (proj1 (render_missing_fields [("id", PInt 1)] example_session)
             eq_refl).
  - exact (proj1 (proj2 (render_missing_fields [("html_diff", PStr "<li>")]
                           example_session)) _ eq_refl eq_refl).
  - exact (proj1 (proj2 (render_missing_fields [("html_diff", PNone)]
                           example_session)) _ eq_refl eq_refl).
Defined.

Lemma render_message_keeps_fields_witness :
  exists msg,
    render (PDict [("type", PStr "update"); ("id", PInt 1);
                   ("html_diff", PStr "<li>"); ("origin", PStr "item.1")])
           example_session
      = (Ok tt, emit (SendJson (PDict msg)) example_session) ∧
    dict_get "type" msg = Some (PStr "render") ∧
    dict_get "origin" msg = Some (PStr "item.1") ∧
    map fst msg = ["type"; "id"; "html_diff"; "origin"].
Proof.
  destruct (render_message_keeps_fields
              [("type", PStr "update"); ("id", PInt 1);
               ("html_diff", PStr "<li>"); ("origin", PStr "item.1")]
              (PInt 1) (PStr "<li>") example_session eq_refl eq_refl eq_refl)
    as (msg & Hrun & Htype & Hother & Hkeys).
  exists msg. split_and!.
  - exact Hrun.
  - exact Htype.
  - rewrite Hother by discriminate. reflexivity.
  - exact Hkeys.
Defined.

Lemma visit_witness :
  visit (PDict [("type", PStr "visit"); ("action", PStr "advance");
                ("url", PStr "/todo")]) example_session
    = (Ok tt,
       emit (SendJson (PDict [("type", PStr "visit");
                              ("action", PStr "advance");
                              ("url", PStr "/todo")])) example_session) ∧
  visit (PDict [("action", PStr "advance")]) example_session
    = (Raise (KeyError "url"), example_session).
Proof.
  split.
  - exact (proj1 (visit_passes_event_through
                    [("type", PStr "visit"); ("action", PStr "advance");
                     ("url", PStr "/todo")] example_session)
             (PStr "advance") (PStr "/todo") eq_refl eq_refl).
  - exact (proj2 (proj2 (visit_passes_event_through
                           [("action", PStr "advance")] example_session))
             (PStr "advance") eq_refl eq_refl).
Defined.

Lemma remove_failure_witness :
  remove (PDict [("type", PStr "remove")]) example_session
    = (Raise (KeyError "id"), example_session) ∧
  remove (PDict [("id", PInt 1)]) (new_consumer example_channel ∅)
    = (Raise AttributeError, new_consumer example_channel ∅).
Proof.
  split.
  - exact (proj1 (remove_failure_sends_nothing [("type", PStr "remove")]
                    example_session) eq_refl).
  - exact (proj2 (remove_failure_sends_nothing [("id", PInt 1)]
                    (new_consumer example_channel ∅))
             (PInt 1) eq_refl eq_refl).
Defined.

Lemma malformed_request_witness :
  receive_json (env := example_env) (PList []) example_session
    = (Raise TypeError, example_session) ∧
  receive_json (env := example_env)
    (PDict [("command", PStr "nothing")]) example_session
    = (Raise (KeyError "payload"), example_session) ∧
  receive_json (env := example_env)
    (PDict [("command", PStr "leave"); ("payload", PInt 1)]) example_session
    = (Raise TypeError, example_session).
Proof.
  split_and!.
  - apply (proj1 (malformed_request_changes_nothing (env := example_env)
                    (PList []) example_session)).
    intros d H. discriminate H.
  - exact (proj1 (proj2 (proj2 (malformed_request_changes_nothing
                                  (env := example_env)
                                  (PDict [("command", PStr "nothing")])
                                  example_session)))
             _ (PStr "nothing") eq_refl eq_refl eq_refl).
  - apply (proj2 (proj2 (proj2 (malformed_request_changes_nothing
                                  (env := example_env)
                                  (PDict [("command", PStr "leave");
                                          ("payload", PInt 1)])
                                  example_session)))
             _ (PStr "leave") Receive_leave (PInt 1) eq_refl eq_refl eq_refl
             eq_refl).
    intros kw H. discriminate H.
Defined.

Lemma payload_fields_must_match_witness :
  receive_json (env := example_env)
    (PDict (command "leave" [("id", PInt 1); ("force", PBool true)]))
    example_session
  = (Raise TypeError, example_session).
Proof.
  apply (payload_fields_must_match (env := example_env)
           (command "leave" [("id", PInt 1); ("force", PBool true)])
           [("id", PInt 1); ("force", PBool true)] "leave"
           receive_leave_params example_session eq_refl eq_refl eq_refl).
  right. exists "force". split.
  - right. left. reflexivity.
  - intros [H|[]]. discriminate H.
Defined.

Lemma payload_field_order_witness :
  receive_json (env := example_env)
    (PDict (command "join"
              [("tag_name", PStr "XTodoList"); ("id", PInt 3);
               ("state", PStr "ok:{}")])) example_session
  = receive_json (env := example_env)
      (PDict (command "join"
                [("id", PInt 3); ("tag_name", PStr "XTodoList");
                 ("state", PStr "ok:{}")])) example_session.
Proof.
  apply (payload_field_order_is_irrelevant (env := example_env)).
  - repeat constructor; simpl; intuition discriminate.
  - apply perm_swap.
Defined.

Lemma join_with_bad_state_witness :
  receive_join (env := example_env) (PStr "XTodoList") (PInt 3)
    (PStr "ok:{showing}") example_session
    = (Raise ValueError, example_session) ∧
  receive_join (env := example_env) (PStr "XTodoList") (PInt 3)
    (PStr "ok:null") example_session
    = (Raise TypeError, example_session).
Proof.
  split.
  - exact (proj1 (join_with_bad_state_is_rejected (env := example_env)
                    (PStr "XTodoList") (PInt 3) (PStr "ok:{showing}")
                    "{showing}" example_session eq_refl) ValueError eq_refl).
  - apply (proj1 (proj2 (proj2 (join_with_bad_state_is_rejected
                                  (env := example_env)
                                  (PStr "XTodoList") (PInt 3) (PStr "ok:null")
                                  "null" example_session eq_refl)))
             PNone _ eq_refl eq_refl).
    intros args H. discriminate H.
Defined.

Lemma user_event_arguments_witness :
  user_event_kwargs (env := example_env) (PDict [("showing", PStr "all")])
    (PList [])
  = user_event_kwargs (env := example_env) (PDict [("showing", PStr "all")])
      (PDict []) ∧
  receive_user_event (env := example_env) (PInt 1) (PStr "show")
    (PDict []) (PList [PStr "showing"]) example_session
  = (Raise TypeError, example_session).
Proof.
  split.
  - exact (proj1 (user_event_arguments (env := example_env) _ (PList []))
             eq_refl).
  - apply (proj1 (proj2 (user_event_arguments (env := example_env)
                           (PDict []) (PList [PStr "showing"])))
             [] eq_refl eq_refl).
    intros m H. discriminate H.
Defined.

Lemma disconnect_ends_every_membership_witness :
  let st :=
    after (env := example_env)
      ([Connect;
        Receive (PDict (command "join"
                          [("tag_name", PStr "XTodoCounter"); ("id", PInt 2);
                           ("state", PStr "ok:{}")]))]
       ++ [Disconnect (PInt 1000)])
      (new_consumer example_channel ∅) in
  subscriptions st = ∅ ∧
  forall room, example_channel ∉ members (channel_layer st) room.
Proof.
  intros st.
  destruct (disconnect_ends_every_membership (env := example_env)
              [Connect;
               Receive (PDict (command "join"
                                 [("tag_name", PStr "XTodoCounter");
                                  ("id", PInt 2); ("state", PStr "ok:{}")]))]
              (PInt 1000) example_channel ∅) as (Hsubs & _ & Hnone).
  split; [exact Hsubs|]. apply Hnone.
  intros room. unfold members. rewrite lookup_total_empty.
  apply not_elem_of_empty.
Defined.

Lemma mount_subscribes_or_destroys_witness :
  XTodoItem_mount_with example_first (new_component "XTodoItem" (PInt 9))
    (AVal (PStr "milk")) (PBool false) (PStr "all")
  = Raise AttributeError.
Proof.
  apply (proj2 (proj2 (proj2 (mount_subscribes_or_destroys
                                example_items example_first (PInt 9))))).
  - reflexivity.
  - intros it H. discriminate H.
Defined.

Lemma serialize_mount_round_trip_witness :
  exists c s,
    XTodoItem_mount_with example_first (new_component "XTodoItem" (PInt 1))
      (AItem (mkItem 1 "milk" false)) (PBool true) (PStr "active") = Ok c ∧
    XTodoItem_serialize c = Ok s ∧
    XTodoItem_mount example_first (new_component "XTodoItem" (PInt 1))
      (state_of s) = Ok c.
Proof.
  eexists.
  destruct (proj1 (proj2 (serialize_mount_round_trip example_first (PInt 1)))
              (AItem (mkItem 1 "milk" false)) (PBool true) (PStr "active")
              _ eq_refl)
    as (s & Hser & Hsame & _).
  exists s. split_and!; [reflexivity|exact Hser|].
  apply Hsame. right. eexists. split; reflexivity.
Defined.

Lemma is_visible_witness :
  XTodoItem_is_visible (setattr "showing" (AVal (PStr "all")) example_item)
    = Ok true ∧
  XTodoItem_is_visible
    (setattr "showing" (AVal (PStr "completed")) example_item) = Ok false ∧
  XTodoItem_is_visible (setattr "showing" (AVal (PStr "active")) example_item)
    = Ok true.
Proof.
  destruct (proj1 (is_visible_by_filter example_item) _ eq_refl)
    as (Hall & Hcompleted & Hactive & _).
  split_and!; assumption.
Defined.

Lemma toggle_editing_twice_witness :
  exists once twice,
    XTodoItem_receive_toggle_editing example_item [] = Ok once ∧
    getattr "editing" once = Ok (AVal (PBool true)) ∧
    XTodoItem_receive_toggle_editing once [] = Ok twice ∧
    getattr "editing" twice = Ok (AVal (PBool false)).
Proof.
  destruct (proj2 (toggle_editing_twice example_item _ _ [] []
                     eq_refl eq_refl) eq_refl)
    as (once & twice & H1 & H2 & H3 & H4 & _).
  exists once, twice. split_and!; assumption.
Defined.

Lemma receive_show_witness :
  exists shown,
    XTodoList_receive_show
      (setattr "new_item" (AVal (PStr "milk"))
         (setattr "showing" (AVal (PStr "all"))
            (new_component "XTodoList" (PInt 3))))
      [("showing", PStr "active")] = Ok shown ∧
    XTodoList_serialize shown =
      Ok [("id", AVal (PInt 3)); ("new_item", AVal (PStr "milk"));
          ("showing", AVal (PStr "active"))].
Proof.
  destruct (proj1 (receive_show_sets_the_filter
                     (setattr "new_item" (AVal (PStr "milk"))
                        (setattr "showing" (AVal (PStr "all"))
                           (new_component "XTodoList" (PInt 3))))
                     [("showing", PStr "active")] _ eq_refl)
              (PStr "active") eq_refl)
    as (shown & Hshow & Hser & _).
  exists shown. split; [exact Hshow|exact Hser].
Defined.

Lemma connect_starts_the_session_witness :
  root_component (snd (connect (env := example_env)
                         (new_consumer example_channel ∅))) = Some [] ∧
  receive_leave (PInt 1) (new_consumer example_channel ∅)
    = (Raise AttributeError, new_consumer example_channel ∅).
Proof.
  destruct (connect_starts_the_session (env := example_env)
              (new_consumer example_channel ∅))
    as [(st' & Hrun & Hroot & _) Hbefore].
  split.
  - rewrite Hrun. exact Hroot.
  - exact (proj1 (Hbefore eq_refl (PInt 1))).
Defined.
